(** * inficon_spot: SPI framing and unit conversion of the INFICON Spot driver

    A shallow embedding of [inficon_spot.cpp].  Bytes and machine words are
    integers in [Z] with their wrap-around written out; the SPI bus and the
    chip-select line are an abstract slave device together with a log of the
    bus operations the driver performs; [float] is IEEE-754 binary32, taken
    from the Standard Library's executable specification of floating point. *)

From Stdlib Require Import ZArith Bool Ascii String.
From Stdlib Require Import Floats.SpecFloat.
From stdpp Require Import base list.
From coqutil Require Import Z.bitblast.

Local Open Scope Z_scope.

(** ** Machine integers *)

Module Int.

(** Storing into a [uint8_t] / [byte] object. *)
Definition to_u8 (x : Z) : Z := x mod 2 ^ 8.

(** Storing into a [uint32_t] object. *)
Definition to_u32 (x : Z) : Z := x mod 2 ^ 32.

(** The pointer cast that reads the 32 bits of a [uint32_t] object as an
    [int32_t]: two's complement, sign in bit 31. *)
Definition reinterpret_i32 (x : Z) : Z :=
  if x <? 2 ^ 31 then x else x - 2 ^ 32.

(** The value of a 24-bit two's-complement field: bit 23 is the sign.  The
    driver has no such function; it is what the register format calls for. *)
Definition sign_extend24 (x : Z) : Z :=
  if Z.testbit x 23 then x mod 2 ^ 24 - 2 ^ 24 else x mod 2 ^ 24.

Definition is_u8 (x : Z) : Prop := 0 <= x < 2 ^ 8.

End Int.

(** ** binary32 arithmetic *)

Module F32.

Definition prec : Z := 24.
Definition emax : Z := 128.

Definition float : Type := spec_float.

(** Conversion of an integer to [float], round to nearest even. *)
Definition of_Z (n : Z) : float := binary_normalize prec emax n 0 false.

Definition div (x y : float) : float := SFdiv prec emax x y.
Definition mul (x y : float) : float := SFmul prec emax x y.
Definition eqb (x y : float) : bool := SFeqb x y.

(** The literal [2097152.0f] = 2^21. *)
Definition c2097152 : float := S754_finite false 8388608 (-2).

Definition is_finite (x : float) : bool :=
  match x with
  | S754_zero _ | S754_finite _ _ _ => true
  | _ => false
  end.

End F32.

(** ** The bus: what the driver does to it, and what answers *)

Inductive BitOrder := LSBFIRST | MSBFIRST.
Inductive DataMode := SPI_MODE0 | SPI_MODE1 | SPI_MODE2 | SPI_MODE3.

Record SPISettings := {
  clock : Z;
  bitOrder : BitOrder;
  dataMode : DataMode
}.

Definition LOW : bool := false.
Definition HIGH : bool := true.

(** One entry per call into the Arduino core.  [Transfer tx rx] is one call of
    [SPI.transfer]: [tx] went out, [rx] came back into the same buffer. *)
Inductive event :=
| BeginTransaction (settings : SPISettings)
| EndTransaction
| DigitalWrite (pin : Z) (level : bool)
| Transfer (tx rx : list Z).

(** The sensor at the other end of the wires: it sees the level of the lines
    driven by the host and answers every byte clocked out with a byte. *)
Class Slave (D : Type) := {
  on_pin : Z -> bool -> D -> D;
  on_byte : Z -> D -> Z * D
}.

(** The handle: the four private members of [class InficonSpot]. *)
Record InficonSpot := {
  _ss_pin : Z;
  _rdy_pin : Z;
  _spi_freq : Z;
  _fullscale : F32.float
}.

Definition InficonSpot_default : InficonSpot :=
  {| _ss_pin := 10; _rdy_pin := 7; _spi_freq := 4000000;
     _fullscale := F32.of_Z 0 |}.

Definition InficonSpot_new (ss_pin rdy_pin spi_freq : Z) : InficonSpot :=
  {| _ss_pin := ss_pin; _rdy_pin := rdy_pin; _spi_freq := spi_freq;
     _fullscale := F32.of_Z 0 |}.

Definition setFullscale (this : InficonSpot) (fullscale : F32.float) : InficonSpot :=
  {| _ss_pin := _ss_pin this; _rdy_pin := _rdy_pin this;
     _spi_freq := _spi_freq this; _fullscale := fullscale |}.

(** [SPISettings(_spi_freq, MSBFIRST, SPI_MODE1)] *)
Definition settings (this : InficonSpot) : SPISettings :=
  {| clock := _spi_freq this; bitOrder := MSBFIRST; dataMode := SPI_MODE1 |}.

(** The NUL-terminated string starting at [s], as the [String]
    constructor copies it out of a character array. *)
Fixpoint String_of_cstr (s : list Z) : string :=
  match s with
  | [] => EmptyString
  | c :: s' =>
      if c =? 0 then EmptyString
      else String (ascii_of_N (Z.to_N c)) (String_of_cstr s')
  end.

(** The characters of a byte sequence, all of them. *)
Definition string_of_bytes (bs : list Z) : string :=
  fold_right (fun c acc => String (ascii_of_N (Z.to_N c)) acc) EmptyString bs.

Section Driver.

Context {D : Type} {slave : Slave D}.

(** *** Computations on the bus

    A computation starts from a state of the device and yields its result,
    the device's new state and the bus operations performed, in order. *)

Definition M (A : Type) : Type := D -> A * D * list event.

Definition ret {A : Type} (a : A) : M A := fun d => (a, d, []).

Definition bind {A B : Type} (m : M A) (k : A -> M B) : M B :=
  fun d =>
    let '(a, d1, t1) := m d in
    let '(b, d2, t2) := k a d1 in
    (b, d2, t1 ++ t2).

Definition value {A : Type} (r : A * D * list event) : A := r.1.1.
Definition device {A : Type} (r : A * D * list event) : D := r.1.2.
Definition events {A : Type} (r : A * D * list event) : list event := r.2.

Notation "x <- m ;; k" := (bind m (fun x => k))
  (at level 100, m at next level, right associativity).
Notation "m ;; k" := (bind m (fun _ => k))
  (at level 100, right associativity).

Definition SPI_beginTransaction (st : SPISettings) : M unit :=
  fun d => (tt, d, [BeginTransaction st]).

Definition SPI_endTransaction : M unit :=
  fun d => (tt, d, [EndTransaction]).

Definition digitalWrite (pin : Z) (level : bool) : M unit :=
  fun d => (tt, on_pin pin level d, [DigitalWrite pin level]).

(** The bytes of [tx] are shifted out one after the other, and each is
    replaced by the byte shifted in meanwhile. *)
Fixpoint exchange (tx : list Z) (d : D) : list Z * D :=
  match tx with
  | [] => ([], d)
  | b :: tx' =>
      let '(r, d1) := on_byte b d in
      let '(rs, d2) := exchange tx' d1 in
      (Int.to_u8 r :: rs, d2)
  end.

(** [SPI.transfer(buf, n)] with [n] the size of [buf]; the result is the
    buffer afterwards. *)
Definition SPI_transfer (buf : list Z) : M (list Z) :=
  fun d => let '(rx, d') := exchange buf d in (rx, d', [Transfer buf rx]).

(** [for (int i = 0; i < n; i++) body], started at [i] with [n] rounds left;
    [st] is what the body updates. *)
Fixpoint for_loop {St : Type} (n : nat) (i : Z) (body : Z -> St -> M St)
    (st : St) : M St :=
  match n with
  | O => ret st
  | S n' => st' <- body i st ;; for_loop n' (i + 1) body st'
  end.

(** *** The driver *)

(** [cmd] is a [uint8_t] parameter: what is transferred is the argument
    reduced to a byte. *)
Definition sendCommand (this : InficonSpot) (cmd : Z) : M unit :=
  SPI_beginTransaction (settings this) ;;
  digitalWrite (_ss_pin this) LOW ;;
  _ <- SPI_transfer [Int.to_u8 cmd] ;;
  digitalWrite (_ss_pin this) HIGH ;;
  SPI_endTransaction.

Definition resetSensor (this : InficonSpot) : M unit :=
  sendCommand this 0x88.

Definition readRegister (this : InficonSpot) (reg : Z) : M Z :=
  let buf := [Int.to_u8 (Z.lor reg 0x40); 0; 0; 0] in
  SPI_beginTransaction (settings this) ;;
  digitalWrite (_ss_pin this) LOW ;;
  buf <- SPI_transfer buf ;;
  digitalWrite (_ss_pin this) HIGH ;;
  SPI_endTransaction ;;
  ret (Z.lor (Z.lor (Int.to_u32 (Z.shiftl (nth 1 buf 0) 16))
                    (Int.to_u32 (Z.shiftl (nth 2 buf 0) 8)))
             (nth 3 buf 0)).

Definition writeRegister (this : InficonSpot) (reg data : Z) : M unit :=
  let buf := [Int.to_u8 (Z.lor reg 0xc0);
              Int.to_u8 (Z.land (Z.shiftr data 16) 0xff);
              Int.to_u8 (Z.land (Z.shiftr data 8) 0xff);
              Int.to_u8 (Z.land (Z.shiftr data 0) 0xff)] in
  SPI_beginTransaction (settings this) ;;
  digitalWrite (_ss_pin this) LOW ;;
  _ <- SPI_transfer buf ;;
  digitalWrite (_ss_pin this) HIGH ;;
  SPI_endTransaction.

(** [data] is the caller's array.  [data[i] = b] is [<[i:=b]> data]: the
    model leaves an array that is too short as it is, where the C code would
    write behind its end. [address + i] is computed in [int]; only bits 0 to
    12 of the sum reach the wire. *)
Definition readOTP (this : InficonSpot) (address : Z) (data : list Z)
    (len : Z) : M (list Z) :=
  SPI_beginTransaction (settings this) ;;
  data <- for_loop (Z.to_nat len) 0 (fun i data =>
    let buf := [Int.to_u8 (Z.lor 0x20 (Z.land (Z.shiftr (address + i) 8) 0x1f));
                Int.to_u8 (Z.land (address + i) 0xff);
                0] in
    digitalWrite (_ss_pin this) LOW ;;
    buf <- SPI_transfer buf ;;
    digitalWrite (_ss_pin this) HIGH ;;
    ret (<[Z.to_nat i := nth 2 buf 0]> data)) data ;;
  SPI_endTransaction ;;
  ret data.

Definition readMemory (this : InficonSpot) (address : Z) (data : list Z)
    (len : Z) : M (list Z) :=
  SPI_beginTransaction (settings this) ;;
  data <- for_loop (Z.to_nat len) 0 (fun i data =>
    let buf := [Int.to_u8 (Z.lor 0x10 (Z.land (Z.shiftr (address + i) 8) 0x0f));
                Int.to_u8 (Z.land (address + i) 0xff);
                0] in
    digitalWrite (_ss_pin this) LOW ;;
    buf <- SPI_transfer buf ;;
    digitalWrite (_ss_pin this) HIGH ;;
    ret (<[Z.to_nat i := nth 2 buf 0]> data)) data ;;
  SPI_endTransaction ;;
  ret data.

(** [data] is only read here ([const uint8_t data[]]); it is threaded through
    the loop unchanged.  An index behind the end of the list reads 0. *)
Definition writeMemory (this : InficonSpot) (address : Z) (data : list Z)
    (len : Z) : M (list Z) :=
  SPI_beginTransaction (settings this) ;;
  data <- for_loop (Z.to_nat len) 0 (fun i data =>
    let buf := [Int.to_u8 (Z.lor 0x90 (Z.land (Z.shiftr (address + i) 8) 0x0f));
                Int.to_u8 (Z.land (address + i) 0xff);
                Int.to_u8 (nth (Z.to_nat i) data 0)] in
    digitalWrite (_ss_pin this) LOW ;;
    _ <- SPI_transfer buf ;;
    digitalWrite (_ss_pin this) HIGH ;;
    ret data) data ;;
  SPI_endTransaction ;;
  ret data.

(** [s] is the 32-byte array on the stack, with whatever it holds on entry. *)
Definition readLabel (this : InficonSpot) (address len : Z) (s : list Z)
    : M string :=
  let len := if 32 <? len then 32 else len in
  s <- readMemory this address s len ;;
  let isZeroTerminated :=
    fold_left (fun z i => if nth i s 0 =? 0 then true else z)
              (seq 0 (Z.to_nat len)) false in
  let s := if negb isZeroTerminated then <[0%nat := 0]> s else s in
  ret (String_of_cstr s).

Section Crc.

(** [ADDR_SRAMCRC] and [ADDR_OTPCRC] are defined in [inficon_spot.h]. *)
Variables ADDR_SRAMCRC ADDR_OTPCRC : Z.

(** [crcbuf] is the 4-byte array on the stack, with whatever it holds on
    entry. *)
Definition readSramCrc (this : InficonSpot) (crcbuf : list Z) : M Z :=
  crcbuf <- readMemory this ADDR_SRAMCRC crcbuf 4 ;;
  ret (Z.lor (Z.lor (Z.lor (Int.to_u32 (Z.shiftl (nth 3 crcbuf 0) 24))
                           (Int.to_u32 (Z.shiftl (nth 2 crcbuf 0) 16)))
                    (Int.to_u32 (Z.shiftl (nth 1 crcbuf 0) 8)))
             (nth 0 crcbuf 0)).

Definition readOtpCrc (this : InficonSpot) (crcbuf : list Z) : M Z :=
  crcbuf <- readOTP this ADDR_OTPCRC crcbuf 4 ;;
  ret (Z.lor (Z.lor (Z.lor (Int.to_u32 (Z.shiftl (nth 3 crcbuf 0) 24))
                           (Int.to_u32 (Z.shiftl (nth 2 crcbuf 0) 16)))
                    (Int.to_u32 (Z.shiftl (nth 1 crcbuf 0) 8)))
             (nth 0 crcbuf 0)).

End Crc.

End Driver.

(** *** Unit conversion *)

Definition convertPressure_stored (this : InficonSpot) (result : Z) : F32.float :=
  let rawPressure := Int.reinterpret_i32 result in
  F32.mul (F32.div (F32.of_Z rawPressure) F32.c2097152) (_fullscale this).

Definition convertPressure (result : Z) (fullscale : F32.float) : F32.float :=
  let rawPressure := Int.reinterpret_i32 result in
  F32.mul (F32.div (F32.of_Z rawPressure) F32.c2097152) fullscale.

Definition convertTemperature (result : Z) : F32.float :=
  let rawTemperature := Int.reinterpret_i32 result in
  F32.mul (F32.div (F32.of_Z rawTemperature) F32.c2097152) (F32.of_Z 25).

(** ** Reading the log *)

(** One chip-select pulse around one transfer. *)
Definition pulse (ss : Z) (tx rx : list Z) : list event :=
  [DigitalWrite ss LOW; Transfer tx rx; DigitalWrite ss HIGH].

(** One claim of the bus around a series of pulses. *)
Definition framed_span (st : SPISettings) (ss : Z) (txs rxs : list (list Z))
    : list event :=
  BeginTransaction st :: concat (zip_with (pulse ss) txs rxs) ++ [EndTransaction].

Definition is_begin (e : event) : bool :=
  match e with BeginTransaction _ => true | _ => false end.
Definition is_end (e : event) : bool :=
  match e with EndTransaction => true | _ => false end.
Definition is_transfer (e : event) : bool :=
  match e with Transfer _ _ => true | _ => false end.
Definition is_pin (level : bool) (e : event) : bool :=
  match e with DigitalWrite _ l => Bool.eqb l level | _ => false end.

Definition count (p : event -> bool) (evs : list event) : nat :=
  length (List.filter p evs).

(** The buffers sent, and the buffers received, one per transfer. *)
Definition sent (evs : list event) : list (list Z) :=
  flat_map (fun e => match e with Transfer tx _ => [tx] | _ => [] end) evs.
Definition received (evs : list event) : list (list Z) :=
  flat_map (fun e => match e with Transfer _ rx => [rx] | _ => [] end) evs.

(** The data bytes of a series of 3-byte transfers: the last byte of each
    buffer received. *)
Definition received_data (evs : list event) : list Z :=
  map (fun rx => nth 2 rx 0) (received evs).

(** Bytes 1 to 3 of a 4-byte buffer as [readRegister] puts them together. *)
Definition register_value (rx : list Z) : Z :=
  Z.lor (Z.lor (Int.to_u32 (Z.shiftl (nth 1 rx 0) 16))
               (Int.to_u32 (Z.shiftl (nth 2 rx 0) 8)))
        (nth 3 rx 0).

(** What [readLabel] makes of its array once [readMemory] has filled the
    first [len] places: the scan for a zero byte, the fallback, the string. *)
Definition label_of (len : Z) (s : list Z) : string :=
  let isZeroTerminated :=
    fold_left (fun z i => if nth i s 0 =? 0 then true else z)
              (seq 0 (Z.to_nat len)) false in
  let s := if negb isZeroTerminated then <[0%nat := 0]> s else s in
  String_of_cstr s.

(** The 4 bytes of a CRC buffer as [readSramCrc] and [readOtpCrc] put them
    together. *)
Definition crc_value (crcbuf : list Z) : Z :=
  Z.lor (Z.lor (Z.lor (Int.to_u32 (Z.shiftl (nth 3 crcbuf 0) 24))
                      (Int.to_u32 (Z.shiftl (nth 2 crcbuf 0) 16)))
               (Int.to_u32 (Z.shiftl (nth 1 crcbuf 0) 8)))
        (nth 0 crcbuf 0).

(** The bytes [bs] stored into [data] from index [k] on, one by one. *)
Fixpoint store_from (k : nat) (bs : list Z) (data : list Z) : list Z :=
  match bs with
  | [] => data
  | b :: bs' => store_from (S k) bs' (<[k := b]> data)
  end.

(** The three frames. *)
Definition frame_read_memory (a : Z) : list Z :=
  [Z.lor 0x10 (Z.land (Z.shiftr a 8) 0x0f); Z.land a 0xff; 0].
Definition frame_write_memory (a b : Z) : list Z :=
  [Z.lor 0x90 (Z.land (Z.shiftr a 8) 0x0f); Z.land a 0xff; b].
Definition frame_read_otp (a : Z) : list Z :=
  [Z.lor 0x20 (Z.land (Z.shiftr a 8) 0x1f); Z.land a 0xff; 0].

(** The frames of a write of [len] bytes of [data] from [address] on. *)
Definition write_frames (address : Z) (data : list Z) (len : Z) : list (list Z) :=
  map (fun i => frame_write_memory (address + i) (Int.to_u8 (nth (Z.to_nat i) data 0)))
      (seqZ 0 len).

(** The log of one claim of the bus around one pulse per frame of [txs],
    three bytes each way, and what that means in numbers. *)
Definition span_log (st : SPISettings) (ss : Z) (txs : list (list Z))
    (evs : list event) : Prop :=
  (exists rxs,
     length rxs = length txs
     /\ Forall (fun rx => length rx = 3%nat) rxs
     /\ evs = framed_span st ss txs rxs)
  /\ count is_begin evs = 1%nat
  /\ count is_end evs = 1%nat
  /\ count is_transfer evs = length txs
  /\ count (is_pin LOW) evs = length txs
  /\ count (is_pin HIGH) evs = length txs.

(** ** A mock sensor that echoes

    It keeps the payload of the last write-class transfer (bit 7 of the
    opcode set) and plays it back, slot by slot, behind the opcode of every
    transfer. *)

Record echo := {
  latched : list Z;
  incoming : list Z
}.

Definition echo_pin (ss pin : Z) (level : bool) (d : echo) : echo :=
  if pin =? ss then
    if level then
      match incoming d with
      | op :: payload =>
          {| latched := if Z.testbit op 7 then payload else latched d;
             incoming := [] |}
      | [] => d
      end
    else {| latched := latched d; incoming := [] |}
  else d.

Definition echo_byte (b : Z) (d : echo) : Z * echo :=
  (match incoming d with
   | [] => 0
   | _ :: seen => nth (length seen) (latched d) 0
   end,
   {| latched := latched d; incoming := incoming d ++ [b] |}).

Definition echo_slave (ss : Z) : Slave echo :=
  {| on_pin := echo_pin ss; on_byte := echo_byte |}.

Definition echo_idle : echo := {| latched := []; incoming := [] |}.

(** ** A mock sensor with memory

    It answers the third byte of every transfer with the cell addressed by
    the first two: the second byte is bits 0 to 7 of the address, the low
    bits of the opcode are the bits from 8 on, five of them in an OTP opcode
    (bit 5 set) and four otherwise. *)

Record rom := {
  cells : list Z;
  seen : list Z
}.

Definition rom_pin (ss pin : Z) (level : bool) (d : rom) : rom :=
  if (pin =? ss) && negb level then {| cells := cells d; seen := [] |} else d.

Definition rom_byte (b : Z) (d : rom) : Z * rom :=
  (match seen d with
   | [op; lo] =>
       let high := Z.land op (if Z.testbit op 5 then 0x1f else 0x0f) in
       nth (Z.to_nat (Z.lor (Z.shiftl high 8) lo)) (cells d) 0
   | _ => 0
   end,
   {| cells := cells d; seen := seen d ++ [b] |}).

Definition rom_slave (ss : Z) : Slave rom :=
  {| on_pin := rom_pin ss; on_byte := rom_byte |}.

(** A handle with the default pins and clock, for the examples. *)
Definition spot : InficonSpot := InficonSpot_default.

(** A memory that holds the label [SPOT] at address 0 and the bytes 1, 2, 3, 4
    at address 8. *)
Definition rom_SPOT : rom :=
  {| cells := [83; 80; 79; 84; 0; 65; 66; 67; 1; 2; 3; 4]; seen := [] |}.

Section DeviceSide.

Context {D : Type} {slave : Slave D}.

(** What one pulse does to the device, and what comes back. *)
Definition transaction (ss : Z) (tx : list Z) (d : D) : list Z * D :=
  let '(rx, d') := exchange tx (on_pin ss LOW d) in
  (rx, on_pin ss HIGH d').

(** What a series of pulses does to the device: the buffers that come back,
    and the device afterwards. *)
Fixpoint answers (ss : Z) (txs : list (list Z)) (d : D) : list (list Z) * D :=
  match txs with
  | [] => ([], d)
  | tx :: txs' =>
      let r := transaction ss tx d in
      let rs := answers ss txs' r.2 in
      (r.1 :: rs.1, rs.2)
  end.

(** A device that answers a 4-byte read-class transfer (bit 7 of the opcode
    clear) with the payload of the write-class transfer (bit 7 set) just
    before it, on the same three slots. *)
Definition echoes_writes (ss : Z) : Prop :=
  forall (d : D) (o o' b1 b2 b3 : Z),
    Int.is_u8 o -> Int.is_u8 o' ->
    Z.testbit o 7 = true -> Z.testbit o' 7 = false ->
    Int.is_u8 b1 -> Int.is_u8 b2 -> Int.is_u8 b3 ->
    exists x,
      (transaction ss [o'; 0; 0; 0] (transaction ss [o; b1; b2; b3] d).2).1
      = [x; b1; b2; b3].

End DeviceSide.

(** ** The label accessors *)

Section LabelAccessors.

Context {D : Type} {slave : Slave D}.

(** The six label addresses are defined in [inficon_spot.h]. *)
Variables ADDR_PRODUCT_NO ADDR_SERIAL_NO ADDR_FULLSCALE1 ADDR_FULLSCALE2
          ADDR_TYPE ADDR_SPEED : Z.

Definition readProductNo (this : InficonSpot) (s : list Z) : M string :=
  readLabel this ADDR_PRODUCT_NO 32 s.

Definition readSerialNo (this : InficonSpot) (s : list Z) : M string :=
  readLabel this ADDR_SERIAL_NO 32 s.

Definition readFullscale1 (this : InficonSpot) (s : list Z) : M string :=
  readLabel this ADDR_FULLSCALE1 16 s.

Definition readFullscale2 (this : InficonSpot) (s : list Z) : M string :=
  readLabel this ADDR_FULLSCALE2 16 s.

Definition readType (this : InficonSpot) (s : list Z) : M string :=
  readLabel this ADDR_TYPE 16 s.

Definition readSpeed (this : InficonSpot) (s : list Z) : M string :=
  readLabel this ADDR_SPEED 16 s.

End LabelAccessors.

(** ** The discipline of the bus

    What a log must look like for the sensor to make sense of it: the bus is
    claimed, chip select goes low, one buffer is transferred, chip select
    goes high, and so on until the bus is released.  Nothing but the chip
    select line [ss] is driven. *)

Inductive phase := Idle | Claimed | Selected | Transferred.

Definition bus_step (ss : Z) (p : phase) (e : event) : option phase :=
  match p, e with
  | Idle, BeginTransaction _ => Some Claimed
  | Claimed, DigitalWrite pin false => if pin =? ss then Some Selected else None
  | Selected, Transfer tx rx =>
      if (length tx =? length rx)%nat then Some Transferred else None
  | Transferred, DigitalWrite pin true => if pin =? ss then Some Claimed else None
  | Claimed, EndTransaction => Some Idle
  | _, _ => None
  end.

Fixpoint bus_run (ss : Z) (p : phase) (evs : list event) : option phase :=
  match evs with
  | [] => Some p
  | e :: evs' =>
      match bus_step ss p e with
      | Some p' => bus_run ss p' evs'
      | None => None
      end
  end.

(** A log that starts and ends with the bus free and chip select high. *)
Definition well_framed (ss : Z) (evs : list event) : Prop :=
  bus_run ss Idle evs = Some Idle.

(** The address that the first two bytes of a memory frame name, and the one
    that the first two bytes of an OTP frame name. *)
Definition memory_address_of (tx : list Z) : Z :=
  Z.lor (Z.shiftl (Z.land (nth 0 tx 0) 0x0f) 8) (nth 1 tx 0).
Definition otp_address_of (tx : list Z) : Z :=
  Z.lor (Z.shiftl (Z.land (nth 0 tx 0) 0x1f) 8) (nth 1 tx 0).

(** ** A mock sensor with writable memory

    It knows the two memory opcodes: [0x1h] reads and [0x9h] writes the cell
    whose address has [h] as bits 8 to 11 and the second byte as bits 0 to 7.
    A read is answered on the third byte, a write takes the third byte. *)

Record ram := {
  ram_cells : Z -> Z;
  ram_seen : list Z
}.

Definition ram_pin (ss pin : Z) (level : bool) (d : ram) : ram :=
  if (pin =? ss) && negb level
  then {| ram_cells := ram_cells d; ram_seen := [] |}
  else d.

Definition ram_store (cells : Z -> Z) (addr b : Z) : Z -> Z :=
  fun a => if a =? addr then b else cells a.

Definition ram_byte (b : Z) (d : ram) : Z * ram :=
  match ram_seen d with
  | [op; lo] =>
      let addr := memory_address_of [op; lo] in
      if Z.shiftr op 4 =? 1 then
        (ram_cells d addr,
         {| ram_cells := ram_cells d; ram_seen := ram_seen d ++ [b] |})
      else if Z.shiftr op 4 =? 9 then
        (0, {| ram_cells := ram_store (ram_cells d) addr b;
               ram_seen := ram_seen d ++ [b] |})
      else (0, {| ram_cells := ram_cells d; ram_seen := ram_seen d ++ [b] |})
  | _ => (0, {| ram_cells := ram_cells d; ram_seen := ram_seen d ++ [b] |})
  end.

Definition ram_slave (ss : Z) : Slave ram :=
  {| on_pin := ram_pin ss; on_byte := ram_byte |}.

Definition ram_blank : ram := {| ram_cells := fun _ => 0xFF; ram_seen := [] |}.

(** The cells after a series of writes, given as pairs of address and byte. *)
Definition ram_writes (cells : Z -> Z) (ps : list (Z * Z)) : Z -> Z :=
  fold_left (fun c p => ram_store c (p.1 mod 2 ^ 12) p.2) ps cells.

(** * Properties *)

(** ** Bytes and words *)

Lemma to_u8_range x : Int.is_u8 (Int.to_u8 x).
Proof. unfold Int.is_u8, Int.to_u8. apply Z.mod_pos_bound. lia. Qed.

Lemma to_u8_small x : Int.is_u8 x -> Int.to_u8 x = x.
Proof. unfold Int.is_u8, Int.to_u8. intros Hx. apply Z.mod_small. exact Hx. Qed.

Lemma to_u32_small x : 0 <= x < 2 ^ 32 -> Int.to_u32 x = x.
Proof. unfold Int.to_u32. intros Hx. apply Z.mod_small. exact Hx. Qed.

Lemma testbit_above x n i :
  0 <= n -> 0 <= x < 2 ^ n -> n <= i -> Z.testbit x i = false.
Proof.
  intros Hn Hx Hi.
  destruct (Z.eq_dec x 0) as [-> | Hx0]; [apply Z.testbit_0_l |].
  apply Z.bits_above_log2; [lia |].
  assert (Z.log2 x < n) by (apply Z.log2_lt_pow2; lia). lia.
Qed.

Lemma lor_below a b n :
  0 <= n -> 0 <= a < 2 ^ n -> 0 <= b < 2 ^ n -> 0 <= Z.lor a b < 2 ^ n.
Proof.
  intros Hn Ha Hb.
  assert (Hnn : 0 <= Z.lor a b) by (apply Z.lor_nonneg; lia).
  split; [exact Hnn |].
  destruct (Z.eq_dec (Z.lor a b) 0) as [-> | Hne]; [lia |].
  apply Z.log2_lt_pow2; [lia |].
  rewrite Z.log2_lor by lia.
  destruct (Z.eq_dec a 0) as [-> | Ha0]; destruct (Z.eq_dec b 0) as [-> | Hb0];
    try (exfalso; apply Hne; reflexivity).
  - rewrite Z.max_r by (apply Z.log2_nonneg). apply Z.log2_lt_pow2; lia.
  - rewrite Z.max_l by (apply Z.log2_nonneg). apply Z.log2_lt_pow2; lia.
  - apply Z.max_lub_lt; apply Z.log2_lt_pow2; lia.
Qed.

Lemma land_mask_below x n : 0 <= n -> 0 <= Z.land x (Z.ones n) < 2 ^ n.
Proof.
  intros Hn. rewrite Z.land_ones by exact Hn. apply Z.mod_pos_bound. lia.
Qed.

Lemma lor_u8 a b : Int.is_u8 a -> Int.is_u8 b -> Int.is_u8 (Z.lor a b).
Proof. unfold Int.is_u8. intros Ha Hb. apply lor_below; lia. Qed.

Lemma land_ff_u8 x : Int.is_u8 (Z.land x 0xff).
Proof. apply (land_mask_below x 8). lia. Qed.

Lemma is_u8_0 : Int.is_u8 0.
Proof. unfold Int.is_u8. lia. Qed.

(** An opcode: a class constant or-ed with the low [n] bits of something. *)
Lemma opcode_u8 c x n :
  Int.is_u8 c -> 0 <= n <= 8 -> Int.is_u8 (Z.lor c (Z.land x (Z.ones n))).
Proof.
  intros Hc Hn. apply lor_u8; [exact Hc |].
  pose proof (land_mask_below x n (proj1 Hn)) as Hx.
  assert (2 ^ n <= 2 ^ 8) by (apply Z.pow_le_mono_r; lia).
  unfold Int.is_u8. lia.
Qed.

Create HintDb u8 discriminated.
#[local] Hint Resolve to_u8_range land_ff_u8 is_u8_0 lor_u8 : u8.
#[local] Hint Extern 1 (Int.is_u8 ?c) =>
  match c with Zpos _ => unfold Int.is_u8; lia end : u8.

(** [Forall P [x0; x1; ...]] taken apart into [P x0], [P x1], ... *)
Ltac split_Forall H :=
  let Hx := fresh "Hx" in
  let Hl := fresh "Hl" in
  inversion H as [| ? ? Hx Hl]; subst; clear H;
  try split_Forall Hl.

(** The three low bytes of a word, most significant first, add up to its low
    24 bits. *)
Lemma split_be24 data :
  0 <= data ->
  Z.land (Z.shiftr data 16) 0xff * 2 ^ 16
  + Z.land (Z.shiftr data 8) 0xff * 2 ^ 8
  + Z.land (Z.shiftr data 0) 0xff = data mod 2 ^ 24.
Proof.
  intros Hd. change 0xff with (Z.ones 8).
  rewrite !Z.land_ones, !Z.shiftr_div_pow2 by lia.
  Z.div_mod_to_equations. lia.
Qed.

(** Bytes or-ed together at distances of 8 bits do not overlap. *)
Lemma assemble_be24 b1 b2 b3 :
  Int.is_u8 b1 -> Int.is_u8 b2 -> Int.is_u8 b3 ->
  Z.lor (Z.lor (Z.shiftl b1 16) (Z.shiftl b2 8)) b3
  = b1 * 2 ^ 16 + b2 * 2 ^ 8 + b3.
Proof.
  unfold Int.is_u8. intros H1 H2 H3.
  rewrite <- !Z.shiftl_mul_pow2 by lia.
  rewrite (Z.or_to_plus (Z.lor _ _) b3).
  - f_equal. apply Z.or_to_plus.
    Z.bitblast. subst. destruct (Z_lt_le_dec i 16).
    + rewrite (Z.testbit_neg_r b1) by lia. reflexivity.
    + rewrite (testbit_above b2 8) by lia. apply andb_false_r.
  - Z.bitblast. subst. destruct (Z_lt_le_dec i 8).
    + rewrite (Z.testbit_neg_r b1), (Z.testbit_neg_r b2) by lia. reflexivity.
    + rewrite (testbit_above b3 8) by lia. apply andb_false_r.
Qed.

Lemma shiftl_u8_u32 b n : Int.is_u8 b -> 0 <= n <= 24 ->
  Int.to_u32 (Z.shiftl b n) = Z.shiftl b n.
Proof.
  unfold Int.is_u8. intros Hb Hn. apply to_u32_small.
  rewrite Z.shiftl_mul_pow2 by lia.
  assert (0 < 2 ^ n) by (apply Z.pow_pos_nonneg; lia).
  assert (2 ^ n <= 2 ^ 24) by (apply Z.pow_le_mono_r; lia).
  nia.
Qed.

(** The opcode of a register access: the register index in bits 0 to 5, the
    class in bits 6 and 7. *)
Lemma register_opcode_u8 reg c : 0 <= reg <= 63 -> Int.is_u8 c ->
  Int.to_u8 (Z.lor reg c) = Z.lor reg c.
Proof.
  intros Hr Hc. apply to_u8_small. apply lor_u8; [unfold Int.is_u8; lia | exact Hc].
Qed.

Lemma read_opcode_bit7 reg : 0 <= reg <= 63 -> Z.testbit (Z.lor reg 0x40) 7 = false.
Proof.
  intros Hr. rewrite Z.lor_spec, (testbit_above reg 6) by lia. reflexivity.
Qed.

Lemma write_opcode_bit7 reg : Z.testbit (Z.lor reg 0xc0) 7 = true.
Proof. rewrite Z.lor_spec. apply orb_true_r. Qed.

(** ** Single transfers *)

Section TransferFacts.

Context {D : Type} {slave : Slave D}.

Lemma exchange_length tx : forall d : D, length (exchange tx d).1 = length tx.
Proof.
  induction tx as [| b tx IH]; intros d; simpl; [reflexivity |].
  destruct (on_byte b d) as [r d1]. specialize (IH d1).
  destruct (exchange tx d1) as [rs d2]. simpl in *. f_equal. exact IH.
Qed.

Lemma exchange_u8 tx : forall d : D, Forall Int.is_u8 (exchange tx d).1.
Proof.
  induction tx as [| b tx IH]; intros d; simpl; [constructor |].
  destruct (on_byte b d) as [r d1]. specialize (IH d1).
  destruct (exchange tx d1) as [rs d2]. simpl in *.
  constructor; [apply to_u8_range | exact IH].
Qed.

Lemma transaction_length ss tx (d : D) :
  length (transaction ss tx d).1 = length tx.
Proof.
  unfold transaction. pose proof (exchange_length tx (on_pin ss LOW d)) as H.
  destruct (exchange tx (on_pin ss LOW d)) as [rx d']. exact H.
Qed.

Lemma transaction_u8 ss tx (d : D) : Forall Int.is_u8 (transaction ss tx d).1.
Proof.
  unfold transaction. pose proof (exchange_u8 tx (on_pin ss LOW d)) as H.
  destruct (exchange tx (on_pin ss LOW d)) as [rx d']. exact H.
Qed.

(** A buffer of four comes back as a buffer of four bytes. *)
Lemma transaction_4 ss a b c e (d : D) :
  exists r0 r1 r2 r3,
    (transaction ss [a; b; c; e] d).1 = [r0; r1; r2; r3]
    /\ Int.is_u8 r0 /\ Int.is_u8 r1 /\ Int.is_u8 r2 /\ Int.is_u8 r3.
Proof.
  pose proof (transaction_length ss [a; b; c; e] d) as Hl.
  pose proof (transaction_u8 ss [a; b; c; e] d) as Hu.
  destruct ((transaction ss [a; b; c; e] d).1)
    as [| r0 [| r1 [| r2 [| r3 [| r4 rest]]]]]; try discriminate Hl.
  exists r0, r1, r2, r3. split_Forall Hu.
  split; [reflexivity |]. repeat (split; [assumption |]). assumption.
Qed.

(** A pulse, as the driver writes it, is a [transaction] of the device. *)
Lemma pulse_run ss tx (d : D) :
  bind (digitalWrite ss LOW)
       (fun _ => bind (SPI_transfer tx)
                      (fun buf => bind (digitalWrite ss HIGH) (fun _ => ret buf))) d
  = ((transaction ss tx d).1, (transaction ss tx d).2,
     pulse ss tx (transaction ss tx d).1).
Proof.
  unfold bind, digitalWrite, SPI_transfer, ret, transaction, pulse.
  destruct (exchange tx (on_pin ss LOW d)) as [rx d']. reflexivity.
Qed.

Lemma readRegister_run this reg (d : D) :
  let tx := [Int.to_u8 (Z.lor reg 0x40); 0; 0; 0] in
  let r := transaction (_ss_pin this) tx d in
  readRegister this reg d
  = (register_value r.1, r.2,
     [BeginTransaction (settings this); DigitalWrite (_ss_pin this) LOW;
      Transfer tx r.1; DigitalWrite (_ss_pin this) HIGH; EndTransaction]).
Proof.
  unfold readRegister, bind, SPI_beginTransaction, SPI_endTransaction,
    digitalWrite, SPI_transfer, ret, transaction, register_value.
  cbv zeta.
  destruct (exchange _ (on_pin (_ss_pin this) LOW d)) as [rx d']. reflexivity.
Qed.

Lemma writeRegister_run this reg data (d : D) :
  let tx := [Int.to_u8 (Z.lor reg 0xc0);
             Int.to_u8 (Z.land (Z.shiftr data 16) 0xff);
             Int.to_u8 (Z.land (Z.shiftr data 8) 0xff);
             Int.to_u8 (Z.land (Z.shiftr data 0) 0xff)] in
  let r := transaction (_ss_pin this) tx d in
  writeRegister this reg data d
  = (tt, r.2,
     [BeginTransaction (settings this); DigitalWrite (_ss_pin this) LOW;
      Transfer tx r.1; DigitalWrite (_ss_pin this) HIGH; EndTransaction]).
Proof.
  unfold writeRegister, bind, SPI_beginTransaction, SPI_endTransaction,
    digitalWrite, SPI_transfer, ret, transaction.
  cbv zeta.
  destruct (exchange _ (on_pin (_ss_pin this) LOW d)) as [rx d']. reflexivity.
Qed.

Lemma register_value_be r0 r1 r2 r3 :
  Int.is_u8 r1 -> Int.is_u8 r2 -> Int.is_u8 r3 ->
  register_value [r0; r1; r2; r3]
  = Z.lor (Z.lor (Z.shiftl r1 16) (Z.shiftl r2 8)) r3.
Proof.
  intros H1 H2 H3. unfold register_value. cbn [nth].
  rewrite !shiftl_u8_u32 by (assumption || lia). reflexivity.
Qed.

End TransferFacts.

(** ** Register access *)

Section Registers.

Context {D : Type} {slave : Slave D}.

(** C2.  For a register index in 0..63, [readRegister] sends the four bytes
    [reg | 0x40, 0, 0, 0] and [writeRegister] sends [reg | 0xC0] followed by
    the three bytes of the 24-bit value, most significant first: they are
    bytes, and weighted by 2^16, 2^8 and 1 they add up to the value.  Each
    call is one claim of the bus around one chip-select pulse. *)
Theorem register_frames (this : InficonSpot) (reg data : Z) (d : D) :
  0 <= reg <= 63 ->
  0 <= data < 2 ^ 24 ->
  (exists rx,
     events (readRegister this reg d)
     = framed_span (settings this) (_ss_pin this)
         [[Z.lor reg 0x40; 0; 0; 0]] [rx])
  /\
  (exists b1 b2 b3 rx,
     events (writeRegister this reg data d)
     = framed_span (settings this) (_ss_pin this)
         [[Z.lor reg 0xc0; b1; b2; b3]] [rx]
     /\ Int.is_u8 b1 /\ Int.is_u8 b2 /\ Int.is_u8 b3
     /\ b1 * 2 ^ 16 + b2 * 2 ^ 8 + b3 = data).
Proof.
  intros Hreg Hdata. split.
  - rewrite readRegister_run. cbv zeta. unfold events. cbn [snd].
    rewrite register_opcode_u8 by (unfold Int.is_u8; lia).
    eexists. reflexivity.
  - rewrite writeRegister_run. cbv zeta. unfold events. cbn [snd].
    rewrite register_opcode_u8 by (unfold Int.is_u8; lia).
    rewrite !(to_u8_small (Z.land _ 0xff)) by auto with u8.
    exists (Z.land (Z.shiftr data 16) 0xff), (Z.land (Z.shiftr data 8) 0xff),
      (Z.land (Z.shiftr data 0) 0xff).
    eexists. split; [reflexivity |].
    repeat (split; [auto with u8 |]).
    rewrite split_be24 by lia. apply Z.mod_small. lia.
Qed.

(** C8.  Whatever the register index and whatever the device answers,
    [readRegister] makes one 4-byte transfer, and with [b0, b1, b2, b3] the
    four bytes with which the device answers that transfer it returns
    [b1<<16 | b2<<8 | b3]; the result is below 2^24, so bits 24 to 31 of it
    are zero.  The device is left as the transfer leaves it. *)
Theorem readRegister_value (this : InficonSpot) (reg : Z) (d : D) :
  let tx := [Int.to_u8 (Z.lor reg 0x40); 0; 0; 0] in
  let answer := transaction (_ss_pin this) tx d in
  exists b0 b1 b2 b3,
    answer.1 = [b0; b1; b2; b3]
    /\ events (readRegister this reg d)
       = framed_span (settings this) (_ss_pin this) [tx] [[b0; b1; b2; b3]]
    /\ device (readRegister this reg d) = answer.2
    /\ value (readRegister this reg d)
       = Z.lor (Z.lor (Z.shiftl b1 16) (Z.shiftl b2 8)) b3
    /\ 0 <= value (readRegister this reg d) < 2 ^ 24
    /\ (forall i, 24 <= i -> Z.testbit (value (readRegister this reg d)) i = false).
Proof.
  cbv zeta.
  rewrite readRegister_run. cbv zeta. unfold events, value, device. cbn [fst snd].
  destruct (transaction_4 (_ss_pin this) (Int.to_u8 (Z.lor reg 0x40)) 0 0 0 d)
    as (r0 & r1 & r2 & r3 & Hrx & H0 & H1 & H2 & H3).
  rewrite Hrx. exists r0, r1, r2, r3.
  split; [reflexivity |]. split; [reflexivity |]. split; [reflexivity |].
  rewrite register_value_be by assumption.
  split; [reflexivity |].
  assert (Hrange : 0 <= Z.lor (Z.lor (Z.shiftl r1 16) (Z.shiftl r2 8)) r3 < 2 ^ 24).
  { rewrite assemble_be24 by assumption. unfold Int.is_u8 in *. lia. }
  split; [exact Hrange |].
  intros i Hi. apply (testbit_above _ 24); lia.
Qed.

(** C4.  Against a device that plays the payload of a write back on the data
    slots of the read that follows, writing a 24-bit value to a register
    0..63 and reading the register returns the value. *)
Theorem write_read_roundtrip (this : InficonSpot) (r v : Z) (d : D) :
  echoes_writes (_ss_pin this) ->
  0 <= r <= 63 ->
  0 <= v < 2 ^ 24 ->
  value (bind (writeRegister this r v) (fun _ => readRegister this r) d) = v.
Proof.
  intros Hecho Hr Hv. unfold bind.
  rewrite writeRegister_run. cbv zeta.
  rewrite readRegister_run. cbv zeta. unfold value. cbn [fst].
  rewrite !register_opcode_u8 by (unfold Int.is_u8; lia).
  rewrite !(to_u8_small (Z.land _ 0xff)) by auto with u8.
  destruct (Hecho d (Z.lor r 0xc0) (Z.lor r 0x40)
              (Z.land (Z.shiftr v 16) 0xff) (Z.land (Z.shiftr v 8) 0xff)
              (Z.land (Z.shiftr v 0) 0xff)) as [x Hx];
    try (apply lor_u8; unfold Int.is_u8; lia);
    auto with u8.
  - apply write_opcode_bit7.
  - apply read_opcode_bit7. exact Hr.
  - rewrite Hx.
    rewrite register_value_be, assemble_be24 by auto with u8.
    rewrite split_be24 by lia. apply Z.mod_small. lia.
Qed.

End Registers.

(** The mock sensor is such a device. *)
Lemma echo_slave_echoes (ss : Z) : @echoes_writes echo (echo_slave ss) ss.
Proof.
  intros d o o' b1 b2 b3 Ho Ho' Hbit Hbit' H1 H2 H3.
  exists 0.
  unfold transaction. cbn [exchange on_pin on_byte echo_slave].
  unfold echo_byte, echo_pin, LOW, HIGH. rewrite Z.eqb_refl.
  cbn [incoming latched app length nth fst snd]. rewrite Hbit.
  cbn [incoming latched app length nth fst snd].
  rewrite !to_u8_small by (assumption || apply is_u8_0). reflexivity.
Qed.

(** ** Memory and OTP spans *)

Section Spans.

Context {D : Type} {slave : Slave D}.

Lemma answers_length ss txs : forall d : D,
  length (answers ss txs d).1 = length txs.
Proof.
  induction txs as [| tx txs IH]; intros d; simpl; [reflexivity |].
  f_equal. apply IH.
Qed.

Lemma answers_shape ss txs : forall d : D,
  Forall (fun tx => length tx = 3%nat) txs ->
  Forall (fun rx => length rx = 3%nat) (answers ss txs d).1.
Proof.
  induction txs as [| tx txs IH]; intros d Htx; simpl; [constructor |].
  inversion Htx as [| ? ? H3 Hrest]; subst.
  constructor; [rewrite transaction_length; exact H3 | apply IH; exact Hrest].
Qed.

(** The loop of [readMemory] and [readOTP]: one pulse per round, the byte
    received last stored at the round's index. *)
Lemma read_loop_run ss (frame : Z -> list Z) n : forall i data (d : D),
  0 <= i ->
  let txs := map frame (seqZ i (Z.of_nat n)) in
  let a := answers ss txs d in
  for_loop n i
    (fun i data =>
       bind (digitalWrite ss LOW) (fun _ =>
       bind (SPI_transfer (frame i)) (fun buf =>
       bind (digitalWrite ss HIGH) (fun _ =>
       ret (<[Z.to_nat i := nth 2 buf 0]> data))))) data d
  = (store_from (Z.to_nat i) (map (fun rx => nth 2 rx 0) a.1) data, a.2,
     concat (zip_with (pulse ss) txs a.1)).
Proof.
  induction n as [| n IH]; intros i data d Hi; cbv zeta.
  - reflexivity.
  - rewrite seqZ_cons by lia.
    replace (Z.pred (Z.of_nat (S n))) with (Z.of_nat n) by lia.
    cbn [for_loop map answers zip_with concat store_from fst snd].
    unfold bind at 1.
    unfold bind at 1 2 3, digitalWrite at 1 2, SPI_transfer at 1, ret at 1.
    unfold transaction.
    destruct (exchange (frame i) (on_pin ss LOW d)) as [rx d'].
    cbn [fst snd].
    change (i + 1) with (Z.succ i).
    rewrite (IH (Z.succ i)) by lia. cbv zeta.
    replace (Z.to_nat (Z.succ i)) with (S (Z.to_nat i)) by lia.
    reflexivity.
Qed.

(** The loop of [writeMemory]: one pulse per round, the array untouched. *)
Lemma write_loop_run ss (frame : Z -> list Z -> list Z) n : forall i data (d : D),
  let txs := map (fun i => frame i data) (seqZ i (Z.of_nat n)) in
  let a := answers ss txs d in
  for_loop n i
    (fun i data =>
       bind (digitalWrite ss LOW) (fun _ =>
       bind (SPI_transfer (frame i data)) (fun _ =>
       bind (digitalWrite ss HIGH) (fun _ =>
       ret data)))) data d
  = (data, a.2, concat (zip_with (pulse ss) txs a.1)).
Proof.
  induction n as [| n IH]; intros i data d; cbv zeta.
  - reflexivity.
  - rewrite seqZ_cons by lia.
    replace (Z.pred (Z.of_nat (S n))) with (Z.of_nat n) by lia.
    cbn [for_loop map answers zip_with concat fst snd].
    unfold bind at 1.
    unfold bind at 1 2 3, digitalWrite at 1 2, SPI_transfer at 1, ret at 1.
    unfold transaction.
    destruct (exchange (frame i data) (on_pin ss LOW d)) as [rx d'].
    cbn [fst snd].
    change (i + 1) with (Z.succ i).
    rewrite (IH (Z.succ i)). cbv zeta.
    reflexivity.
Qed.

(** A claim of the bus around any computation. *)
Lemma claim_run {A : Type} st (m : M A) (d : D) :
  bind (SPI_beginTransaction st)
       (fun _ => bind m (fun x => bind SPI_endTransaction (fun _ => ret x))) d
  = (value (m d), device (m d),
     BeginTransaction st :: events (m d) ++ [EndTransaction]).
Proof.
  unfold bind, SPI_beginTransaction, SPI_endTransaction, ret, value, device, events.
  destruct (m d) as [[x d'] t]. reflexivity.
Qed.

Lemma seqZ_to_nat m n : seqZ m (Z.of_nat (Z.to_nat n)) = seqZ m n.
Proof. unfold seqZ. rewrite Nat2Z.id. reflexivity. Qed.

Lemma frame_read_memory_u8 a :
  [Int.to_u8 (Z.lor 0x10 (Z.land (Z.shiftr a 8) 0x0f));
   Int.to_u8 (Z.land a 0xff); 0] = frame_read_memory a.
Proof.
  unfold frame_read_memory.
  rewrite (to_u8_small (Z.land a 0xff)) by auto with u8.
  rewrite to_u8_small; [reflexivity |].
  apply (opcode_u8 0x10 (Z.shiftr a 8) 4); [auto with u8 | lia].
Qed.

Lemma frame_write_memory_u8 a b :
  [Int.to_u8 (Z.lor 0x90 (Z.land (Z.shiftr a 8) 0x0f));
   Int.to_u8 (Z.land a 0xff); Int.to_u8 b] = frame_write_memory a (Int.to_u8 b).
Proof.
  unfold frame_write_memory.
  rewrite (to_u8_small (Z.land a 0xff)) by auto with u8.
  rewrite to_u8_small; [reflexivity |].
  apply (opcode_u8 0x90 (Z.shiftr a 8) 4); [auto with u8 | lia].
Qed.

Lemma frame_read_otp_u8 a :
  [Int.to_u8 (Z.lor 0x20 (Z.land (Z.shiftr a 8) 0x1f));
   Int.to_u8 (Z.land a 0xff); 0] = frame_read_otp a.
Proof.
  unfold frame_read_otp.
  rewrite (to_u8_small (Z.land a 0xff)) by auto with u8.
  rewrite to_u8_small; [reflexivity |].
  apply (opcode_u8 0x20 (Z.shiftr a 8) 5); [auto with u8 | lia].
Qed.

(** [address + i] may wrap around in a 16-bit [unsigned int] or not: the
    frames only take bits 0 to 12 of the sum. *)
Lemma frames_mod_2_16 a b :
  frame_read_memory (a mod 2 ^ 16) = frame_read_memory a
  /\ frame_write_memory (a mod 2 ^ 16) b = frame_write_memory a b
  /\ frame_read_otp (a mod 2 ^ 16) = frame_read_otp a.
Proof.
  unfold frame_read_memory, frame_write_memory, frame_read_otp.
  change 0x0f with (Z.ones 4). change 0x1f with (Z.ones 5).
  change 0xff with (Z.ones 8).
  rewrite !Z.land_ones, !Z.shiftr_div_pow2 by lia.
  assert (H8 : (a mod 2 ^ 16) mod 2 ^ 8 = a mod 2 ^ 8)
    by (Z.div_mod_to_equations; lia).
  assert (H4 : (a mod 2 ^ 16 / 2 ^ 8) mod 2 ^ 4 = (a / 2 ^ 8) mod 2 ^ 4)
    by (Z.div_mod_to_equations; lia).
  assert (H5 : (a mod 2 ^ 16 / 2 ^ 8) mod 2 ^ 5 = (a / 2 ^ 8) mod 2 ^ 5)
    by (Z.div_mod_to_equations; lia).
  rewrite H8, H4, H5. repeat split; reflexivity.
Qed.

Lemma readMemory_run this address data len (d : D) :
  let txs := map frame_read_memory (seqZ address len) in
  let a := answers (_ss_pin this) txs d in
  readMemory this address data len d
  = (store_from 0 (map (fun rx => nth 2 rx 0) a.1) data, a.2,
     framed_span (settings this) (_ss_pin this) txs a.1).
Proof.
  cbv zeta. unfold readMemory. rewrite claim_run.
  set (loop := for_loop _ _ _ data d).
  assert (Hloop : loop =
    let txs := map (fun i => [Int.to_u8 (Z.lor 0x10 (Z.land (Z.shiftr (address + i) 8) 0x0f));
                              Int.to_u8 (Z.land (address + i) 0xff); 0])
                   (seqZ 0 (Z.of_nat (Z.to_nat len))) in
    let a := answers (_ss_pin this) txs d in
    (store_from (Z.to_nat 0) (map (fun rx => nth 2 rx 0) a.1) data, a.2,
     concat (zip_with (pulse (_ss_pin this)) txs a.1))).
  { subst loop.
    exact (read_loop_run (_ss_pin this)
             (fun i => [Int.to_u8 (Z.lor 0x10 (Z.land (Z.shiftr (address + i) 8) 0x0f));
                        Int.to_u8 (Z.land (address + i) 0xff); 0])
             (Z.to_nat len) 0 data d (Z.le_refl 0)). }
  rewrite Hloop. cbv zeta. clear loop Hloop.
  rewrite seqZ_to_nat.
  rewrite (map_ext _ (fun i => frame_read_memory (address + i)))
    by (intros i; apply frame_read_memory_u8).
  rewrite <- (map_map (Z.add address) frame_read_memory).
  change (map (Z.add address) (seqZ 0 len)) with (Z.add address <$> seqZ 0 len).
  rewrite fmap_add_seqZ, Z.add_0_r.
  reflexivity.
Qed.

Lemma readOTP_run this address data len (d : D) :
  let txs := map frame_read_otp (seqZ address len) in
  let a := answers (_ss_pin this) txs d in
  readOTP this address data len d
  = (store_from 0 (map (fun rx => nth 2 rx 0) a.1) data, a.2,
     framed_span (settings this) (_ss_pin this) txs a.1).
Proof.
  cbv zeta. unfold readOTP. rewrite claim_run.
  set (loop := for_loop _ _ _ data d).
  assert (Hloop : loop =
    let txs := map (fun i => [Int.to_u8 (Z.lor 0x20 (Z.land (Z.shiftr (address + i) 8) 0x1f));
                              Int.to_u8 (Z.land (address + i) 0xff); 0])
                   (seqZ 0 (Z.of_nat (Z.to_nat len))) in
    let a := answers (_ss_pin this) txs d in
    (store_from (Z.to_nat 0) (map (fun rx => nth 2 rx 0) a.1) data, a.2,
     concat (zip_with (pulse (_ss_pin this)) txs a.1))).
  { subst loop.
    exact (read_loop_run (_ss_pin this)
             (fun i => [Int.to_u8 (Z.lor 0x20 (Z.land (Z.shiftr (address + i) 8) 0x1f));
                        Int.to_u8 (Z.land (address + i) 0xff); 0])
             (Z.to_nat len) 0 data d (Z.le_refl 0)). }
  rewrite Hloop. cbv zeta. clear loop Hloop.
  rewrite seqZ_to_nat.
  rewrite (map_ext _ (fun i => frame_read_otp (address + i)))
    by (intros i; apply frame_read_otp_u8).
  rewrite <- (map_map (Z.add address) frame_read_otp).
  change (map (Z.add address) (seqZ 0 len)) with (Z.add address <$> seqZ 0 len).
  rewrite fmap_add_seqZ, Z.add_0_r.
  reflexivity.
Qed.

Lemma writeMemory_run this address data len (d : D) :
  let txs := write_frames address data len in
  let a := answers (_ss_pin this) txs d in
  writeMemory this address data len d
  = (data, a.2, framed_span (settings this) (_ss_pin this) txs a.1).
Proof.
  cbv zeta. unfold writeMemory, write_frames. rewrite claim_run.
  set (loop := for_loop _ _ _ data d).
  assert (Hloop : loop =
    let txs := map (fun i => [Int.to_u8 (Z.lor 0x90 (Z.land (Z.shiftr (address + i) 8) 0x0f));
                              Int.to_u8 (Z.land (address + i) 0xff);
                              Int.to_u8 (nth (Z.to_nat i) data 0)])
                   (seqZ 0 (Z.of_nat (Z.to_nat len))) in
    let a := answers (_ss_pin this) txs d in
    (data, a.2, concat (zip_with (pulse (_ss_pin this)) txs a.1))).
  { subst loop.
    exact (write_loop_run (_ss_pin this)
             (fun i data => [Int.to_u8 (Z.lor 0x90 (Z.land (Z.shiftr (address + i) 8) 0x0f));
                             Int.to_u8 (Z.land (address + i) 0xff);
                             Int.to_u8 (nth (Z.to_nat i) data 0)])
             (Z.to_nat len) 0 data d). }
  rewrite Hloop. cbv zeta. clear loop Hloop.
  rewrite seqZ_to_nat.
  rewrite (map_ext _ (fun i => frame_write_memory (address + i)
                                 (Int.to_u8 (nth (Z.to_nat i) data 0))))
    by (intros i; apply frame_write_memory_u8).
  reflexivity.
Qed.

End Spans.

(** ** Reading a span's log *)

Lemma count_app p evs1 evs2 :
  count p (evs1 ++ evs2) = (count p evs1 + count p evs2)%nat.
Proof. unfold count. rewrite List.filter_app, length_app. reflexivity. Qed.

Lemma count_pulses p ss c :
  (forall tx rx, count p (pulse ss tx rx) = c) ->
  forall txs rxs, length rxs = length txs ->
  count p (concat (zip_with (pulse ss) txs rxs)) = (length txs * c)%nat.
Proof.
  intros Hc. induction txs as [| tx txs IH]; intros [| rx rxs] Hlen;
    try discriminate Hlen; [reflexivity |].
  cbn [zip_with concat length]. rewrite count_app, Hc, IH by (injection Hlen; auto).
  reflexivity.
Qed.

Lemma sent_pulses ss : forall txs rxs, length rxs = length txs ->
  sent (concat (zip_with (pulse ss) txs rxs)) = txs.
Proof.
  induction txs as [| tx txs IH]; intros [| rx rxs] Hlen;
    try discriminate Hlen; [reflexivity |].
  cbn [zip_with concat]. unfold sent in *. rewrite flat_map_app.
  rewrite IH by (injection Hlen; auto). reflexivity.
Qed.

Lemma received_pulses ss : forall txs rxs, length rxs = length txs ->
  received (concat (zip_with (pulse ss) txs rxs)) = rxs.
Proof.
  induction txs as [| tx txs IH]; intros [| rx rxs] Hlen;
    try discriminate Hlen; [reflexivity |].
  cbn [zip_with concat]. unfold received in *. rewrite flat_map_app.
  rewrite IH by (injection Hlen; auto). reflexivity.
Qed.

Lemma sent_framed_span st ss txs rxs : length rxs = length txs ->
  sent (framed_span st ss txs rxs) = txs.
Proof.
  intros Hlen. unfold framed_span.
  change (sent (BeginTransaction st :: ?l)) with (sent l).
  unfold sent. rewrite flat_map_app. fold (sent (concat (zip_with (pulse ss) txs rxs))).
  rewrite sent_pulses by exact Hlen. apply app_nil_r.
Qed.

Lemma received_framed_span st ss txs rxs : length rxs = length txs ->
  received (framed_span st ss txs rxs) = rxs.
Proof.
  intros Hlen. unfold framed_span.
  change (received (BeginTransaction st :: ?l)) with (received l).
  unfold received. rewrite flat_map_app.
  fold (received (concat (zip_with (pulse ss) txs rxs))).
  rewrite received_pulses by exact Hlen. apply app_nil_r.
Qed.

Lemma count_framed_span p st ss c txs rxs :
  (forall tx rx, count p (pulse ss tx rx) = c) ->
  length rxs = length txs ->
  count p (framed_span st ss txs rxs)
  = ((if p (BeginTransaction st) then 1 else 0) + length txs * c
     + (if p EndTransaction then 1 else 0))%nat.
Proof.
  intros Hc Hlen. unfold framed_span.
  change (BeginTransaction st :: ?l) with ([BeginTransaction st] ++ l).
  rewrite !count_app, (count_pulses p ss c) by assumption.
  unfold count. cbn [List.filter].
  destruct (p (BeginTransaction st)), (p EndTransaction); cbn [length]; lia.
Qed.

(** A [framed_span] with an answer of three bytes per frame is a [span_log]. *)
Lemma framed_span_log st ss txs rxs :
  length rxs = length txs ->
  Forall (fun rx => length rx = 3%nat) rxs ->
  span_log st ss txs (framed_span st ss txs rxs).
Proof.
  intros Hlen H3. unfold span_log.
  split; [exists rxs; auto |].
  rewrite (count_framed_span is_begin st ss 0),
          (count_framed_span is_end st ss 0),
          (count_framed_span is_transfer st ss 1),
          (count_framed_span (is_pin LOW) st ss 1),
          (count_framed_span (is_pin HIGH) st ss 1) by (reflexivity || assumption).
  cbn. repeat split; lia.
Qed.

(** ** Memory and OTP operations *)

Section Regions.

Context {D : Type} {slave : Slave D}.

Lemma frames3_read_memory l :
  Forall (fun tx : list Z => length tx = 3%nat) (map frame_read_memory l).
Proof. induction l; constructor; [reflexivity | assumption]. Qed.

Lemma frames3_read_otp l :
  Forall (fun tx : list Z => length tx = 3%nat) (map frame_read_otp l).
Proof. induction l; constructor; [reflexivity | assumption]. Qed.

Lemma frames3_write address data len :
  Forall (fun tx : list Z => length tx = 3%nat) (write_frames address data len).
Proof.
  unfold write_frames.
  induction (seqZ 0 len); constructor; [reflexivity | assumption].
Qed.

Lemma readMemory_log this address data len (d : D) :
  span_log (settings this) (_ss_pin this)
    (map frame_read_memory (seqZ address len))
    (events (readMemory this address data len d)).
Proof.
  rewrite readMemory_run. cbv zeta. unfold events. cbn [snd].
  apply framed_span_log.
  - apply answers_length.
  - apply answers_shape, frames3_read_memory.
Qed.

Lemma readOTP_log this address data len (d : D) :
  span_log (settings this) (_ss_pin this)
    (map frame_read_otp (seqZ address len))
    (events (readOTP this address data len d)).
Proof.
  rewrite readOTP_run. cbv zeta. unfold events. cbn [snd].
  apply framed_span_log.
  - apply answers_length.
  - apply answers_shape, frames3_read_otp.
Qed.

Lemma writeMemory_log this address data len (d : D) :
  span_log (settings this) (_ss_pin this)
    (write_frames address data len)
    (events (writeMemory this address data len d)).
Proof.
  rewrite writeMemory_run. cbv zeta. unfold events. cbn [snd].
  apply framed_span_log.
  - apply answers_length.
  - apply answers_shape, frames3_write.
Qed.

(** C9.  For a length [N >= 1], each of [readMemory], [writeMemory] and
    [readOTP] claims the bus once, makes one chip-select pulse around one
    3-byte transfer for each of the addresses [A], [A+1], ... [A+N-1] in
    that order, and releases the bus once, after the last pulse: the log is
    [BeginTransaction], then [N] times low - transfer - high, then
    [EndTransaction], and it counts [N] transfers, [N] falling and [N]
    rising edges of chip select, one begin and one end. *)
Theorem span_one_claim_N_pulses (this : InficonSpot) (A : Z) (data : list Z)
    (N : Z) (d : D) :
  1 <= N ->
  length (seqZ A N) = Z.to_nat N
  /\ (forall k, 0 <= k < N -> seqZ A N !! Z.to_nat k = Some (A + k))
  /\ span_log (settings this) (_ss_pin this)
       (map frame_read_memory (seqZ A N))
       (events (readMemory this A data N d))
  /\ span_log (settings this) (_ss_pin this)
       (map (fun k => frame_write_memory (A + k) (Int.to_u8 (nth (Z.to_nat k) data 0)))
            (seqZ 0 N))
       (events (writeMemory this A data N d))
  /\ span_log (settings this) (_ss_pin this)
       (map frame_read_otp (seqZ A N))
       (events (readOTP this A data N d)).
Proof.
  intros HN. split; [apply length_seqZ |].
  split.
  { intros k Hk. rewrite lookup_seqZ_lt by lia. f_equal. lia. }
  split; [apply readMemory_log |].
  split; [apply writeMemory_log | apply readOTP_log].
Qed.

(** C3.  In a span that starts at a 16-bit address, the transfer for the
    address [a] (the [i]-th after the start) sends
    [0x10 | ((a>>8) & 0x0F)] for a memory read, [0x90 | ((a>>8) & 0x0F)]
    for a memory write and [0x20 | ((a>>8) & 0x1F)] for an OTP read as its
    first byte, and [a & 0xFF] as its second. *)
Theorem span_opcodes (this : InficonSpot) (A : Z) (data : list Z)
    (N i : Z) (d : D) :
  0 <= A < 2 ^ 16 ->
  0 <= i < N ->
  let a := A + i in
  sent (events (readMemory this A data N d)) !! Z.to_nat i
  = Some [Z.lor 0x10 (Z.land (Z.shiftr a 8) 0x0f); Z.land a 0xff; 0]
  /\ (exists b,
        sent (events (writeMemory this A data N d)) !! Z.to_nat i
        = Some [Z.lor 0x90 (Z.land (Z.shiftr a 8) 0x0f); Z.land a 0xff; b])
  /\ sent (events (readOTP this A data N d)) !! Z.to_nat i
     = Some [Z.lor 0x20 (Z.land (Z.shiftr a 8) 0x1f); Z.land a 0xff; 0].
Proof.
  intros HA Hi a.
  rewrite readMemory_run, writeMemory_run, readOTP_run. cbv zeta.
  unfold events. cbn [snd].
  rewrite !sent_framed_span by apply answers_length.
  unfold write_frames.
  change (map ?f ?l) with (f <$> l).
  rewrite !list_lookup_fmap, !lookup_seqZ_lt by lia.
  rewrite Z2Nat.id by lia. cbn [fmap option_fmap option_map].
  split; [reflexivity |]. split; [| reflexivity].
  eexists. reflexivity.
Qed.

(** C10.  For a length [N <= 0], each of [readMemory], [writeMemory] and
    [readOTP] claims the bus and releases it and does nothing in between: no
    transfer, no edge on chip select, the device as it was, the caller's
    array as it was. *)
Theorem span_empty (this : InficonSpot) (A : Z) (data : list Z) (N : Z) (d : D) :
  N <= 0 ->
  readMemory this A data N d
  = (data, d, [BeginTransaction (settings this); EndTransaction])
  /\ writeMemory this A data N d
     = (data, d, [BeginTransaction (settings this); EndTransaction])
  /\ readOTP this A data N d
     = (data, d, [BeginTransaction (settings this); EndTransaction]).
Proof.
  intros HN.
  rewrite readMemory_run, writeMemory_run, readOTP_run. cbv zeta.
  unfold write_frames. rewrite !seqZ_nil by exact HN.
  repeat split; reflexivity.
Qed.

End Regions.

(** ** What a read span leaves in the caller's array *)

Section ReadData.

Context {D : Type} {slave : Slave D}.

Lemma answers_u8 ss txs : forall d : D,
  Forall (Forall Int.is_u8) (answers ss txs d).1.
Proof.
  induction txs as [| tx txs IH]; intros d; simpl; [constructor |].
  constructor; [apply transaction_u8 | apply IH].
Qed.

Lemma nth_u8 l i : Forall Int.is_u8 l -> Int.is_u8 (nth i l 0).
Proof.
  intros H. revert i. induction H as [| x l Hx Hl IH]; intros [| i]; cbn [nth];
    try apply is_u8_0; [exact Hx | apply IH].
Qed.

Lemma data_bytes_u8 rxs :
  Forall (Forall Int.is_u8) rxs ->
  Forall Int.is_u8 (map (fun rx => nth 2 rx 0) rxs).
Proof.
  induction 1 as [| rx rxs Hrx Hrxs IH]; cbn [map]; constructor;
    [apply nth_u8; exact Hrx | exact IH].
Qed.

Lemma store_from_length bs : forall k data,
  length (store_from k bs data) = length data.
Proof.
  induction bs as [| b bs IH]; intros k data; cbn [store_from]; [reflexivity |].
  rewrite IH. apply length_insert.
Qed.

(** Storing [bs] from index [k] replaces that stretch of the array. *)
Lemma store_from_spec bs : forall k data,
  (k + length bs <= length data)%nat ->
  store_from k bs data = take k data ++ bs ++ drop (k + length bs) data.
Proof.
  induction bs as [| b bs IH]; intros k data Hlen; cbn [store_from length] in *.
  - rewrite Nat.add_0_r. cbn [app]. symmetry. apply take_drop.
  - rewrite IH by (rewrite length_insert; lia).
    rewrite drop_insert_lt by lia.
    rewrite insert_take_drop by lia.
    rewrite (cons_middle b (take k data)), (app_assoc (take k data) [b]).
    rewrite take_app_length' by (rewrite length_app, length_take; cbn [length]; lia).
    rewrite <- !app_assoc. cbn [app].
    replace (S k + length bs)%nat with (k + S (length bs))%nat by lia.
    reflexivity.
Qed.

Lemma bind_ret_run {A B : Type} (m : M A) (f : A -> B) (d : D) :
  bind m (fun x => ret (f x)) d = (f (value (m d)), device (m d), events (m d)).
Proof.
  unfold bind, ret, value, device, events.
  destruct (m d) as [[x d'] t]. cbn [fst snd]. rewrite app_nil_r. reflexivity.
Qed.

End ReadData.

(** ** The CRC accessors *)

Lemma assemble_le32 b0 b1 b2 b3 :
  Int.is_u8 b0 -> Int.is_u8 b1 -> Int.is_u8 b2 -> Int.is_u8 b3 ->
  Z.lor (Z.lor (Z.lor (Z.shiftl b3 24) (Z.shiftl b2 16)) (Z.shiftl b1 8)) b0
  = b0 + b1 * 2 ^ 8 + b2 * 2 ^ 16 + b3 * 2 ^ 24.
Proof.
  unfold Int.is_u8. intros H0 H1 H2 H3.
  rewrite <- !Z.shiftl_mul_pow2 by lia.
  rewrite (Z.or_to_plus (Z.lor _ _) b0).
  - rewrite (Z.or_to_plus (Z.lor _ _) (Z.shiftl b1 8)).
    + rewrite (Z.or_to_plus (Z.shiftl b3 24)); [lia |].
      Z.bitblast. subst. destruct (Z_lt_le_dec i 24).
      * rewrite (Z.testbit_neg_r b3) by lia. reflexivity.
      * rewrite (testbit_above b2 8) by lia. apply andb_false_r.
    + Z.bitblast. subst. destruct (Z_lt_le_dec i 16).
      * rewrite (Z.testbit_neg_r b3), (Z.testbit_neg_r b2) by lia. reflexivity.
      * rewrite (testbit_above b1 8) by lia. apply andb_false_r.
  - Z.bitblast. subst. destruct (Z_lt_le_dec i 8).
    + rewrite (Z.testbit_neg_r b3), (Z.testbit_neg_r b2), (Z.testbit_neg_r b1) by lia.
      reflexivity.
    + rewrite (testbit_above b0 8) by lia. apply andb_false_r.
Qed.

Lemma crc_value_le b0 b1 b2 b3 :
  Int.is_u8 b0 -> Int.is_u8 b1 -> Int.is_u8 b2 -> Int.is_u8 b3 ->
  crc_value [b0; b1; b2; b3]
  = Z.lor (Z.lor (Z.lor (Z.shiftl b3 24) (Z.shiftl b2 16)) (Z.shiftl b1 8)) b0.
Proof.
  intros H0 H1 H2 H3. unfold crc_value. cbn [nth].
  rewrite !shiftl_u8_u32 by (assumption || lia). reflexivity.
Qed.

(** Four answers of bytes, stored into an array of four, and put together. *)
Lemma crc_of_answers rxs crcbuf :
  length rxs = 4%nat ->
  Forall (Forall Int.is_u8) rxs ->
  length crcbuf = 4%nat ->
  exists b0 b1 b2 b3,
    map (fun rx => nth 2 rx 0) rxs = [b0; b1; b2; b3]
    /\ crc_value (store_from 0 (map (fun rx => nth 2 rx 0) rxs) crcbuf)
       = Z.lor (Z.lor (Z.lor (Z.shiftl b3 24) (Z.shiftl b2 16)) (Z.shiftl b1 8)) b0
    /\ crc_value (store_from 0 (map (fun rx => nth 2 rx 0) rxs) crcbuf)
       = b0 + b1 * 2 ^ 8 + b2 * 2 ^ 16 + b3 * 2 ^ 24.
Proof.
  intros Hlen Hu8 Hbuf.
  pose proof (data_bytes_u8 rxs Hu8) as Hbytes.
  destruct rxs as [| r0 [| r1 [| r2 [| r3 [| r4 rest]]]]]; try discriminate Hlen.
  destruct crcbuf as [| c0 [| c1 [| c2 [| c3 [| c4 crest]]]]]; try discriminate Hbuf.
  cbn [map] in *. split_Forall Hbytes.
  exists (nth 2 r0 0), (nth 2 r1 0), (nth 2 r2 0), (nth 2 r3 0).
  split; [reflexivity |].
  cbn [store_from insert list_insert].
  rewrite crc_value_le by assumption.
  split; [reflexivity | apply assemble_le32; assumption].
Qed.

Section CrcAccessors.

Context {D : Type} {slave : Slave D}.

Variables ADDR_SRAMCRC ADDR_OTPCRC : Z.

(** C6.  [readSramCrc] sends the four memory-read frames for [ADDR_SRAMCRC]
    and the three addresses behind it, [readOtpCrc] the four OTP-read frames
    for [ADDR_OTPCRC] and the three behind it, each in one claim of the bus.
    With [b0, b1, b2, b3] the data bytes with which the device answers these
    four frames, in this order, the result is [b3<<24 | b2<<16 | b1<<8 | b0],
    the number whose least significant byte is [b0]; the device is left as
    the four pulses leave it. *)
Theorem crc_little_endian (this : InficonSpot) (crcbuf : list Z) (d : D) :
  length crcbuf = 4%nat ->
  (let txs := map frame_read_memory (seqZ ADDR_SRAMCRC 4) in
   let a := answers (_ss_pin this) txs d in
   let r := readSramCrc ADDR_SRAMCRC this crcbuf d in
   exists b0 b1 b2 b3,
     map (fun rx => nth 2 rx 0) a.1 = [b0; b1; b2; b3]
     /\ events r = framed_span (settings this) (_ss_pin this) txs a.1
     /\ device r = a.2
     /\ span_log (settings this) (_ss_pin this) txs (events r)
     /\ received_data (events r) = [b0; b1; b2; b3]
     /\ value r
        = Z.lor (Z.lor (Z.lor (Z.shiftl b3 24) (Z.shiftl b2 16)) (Z.shiftl b1 8)) b0
     /\ value r = b0 + b1 * 2 ^ 8 + b2 * 2 ^ 16 + b3 * 2 ^ 24)
  /\
  (let txs := map frame_read_otp (seqZ ADDR_OTPCRC 4) in
   let a := answers (_ss_pin this) txs d in
   let r := readOtpCrc ADDR_OTPCRC this crcbuf d in
   exists b0 b1 b2 b3,
     map (fun rx => nth 2 rx 0) a.1 = [b0; b1; b2; b3]
     /\ events r = framed_span (settings this) (_ss_pin this) txs a.1
     /\ device r = a.2
     /\ span_log (settings this) (_ss_pin this) txs (events r)
     /\ received_data (events r) = [b0; b1; b2; b3]
     /\ value r
        = Z.lor (Z.lor (Z.lor (Z.shiftl b3 24) (Z.shiftl b2 16)) (Z.shiftl b1 8)) b0
     /\ value r = b0 + b1 * 2 ^ 8 + b2 * 2 ^ 16 + b3 * 2 ^ 24).
Proof.
  intros Hbuf. cbv zeta. split.
  - change (readSramCrc ADDR_SRAMCRC this crcbuf d)
      with (bind (readMemory this ADDR_SRAMCRC crcbuf 4)
                 (fun c => ret (crc_value c)) d).
    rewrite bind_ret_run.
    pose proof (readMemory_log this ADDR_SRAMCRC crcbuf 4 d) as Hlog.
    rewrite readMemory_run in *. cbv zeta in *.
    unfold value, device, events, received_data in *. cbn [fst snd] in *.
    set (txs := map frame_read_memory (seqZ ADDR_SRAMCRC 4)) in *.
    rewrite received_framed_span by apply answers_length.
    destruct (crc_of_answers (answers (_ss_pin this) txs d).1 crcbuf)
      as (b0 & b1 & b2 & b3 & Hbs & Hlor & Hsum);
      [rewrite answers_length; reflexivity | apply answers_u8 | exact Hbuf |].
    exists b0, b1, b2, b3.
    split; [exact Hbs |]. split; [reflexivity |]. split; [reflexivity |].
    split; [exact Hlog |]. split; [exact Hbs |]. split; [exact Hlor | exact Hsum].
  - change (readOtpCrc ADDR_OTPCRC this crcbuf d)
      with (bind (readOTP this ADDR_OTPCRC crcbuf 4)
                 (fun c => ret (crc_value c)) d).
    rewrite bind_ret_run.
    pose proof (readOTP_log this ADDR_OTPCRC crcbuf 4 d) as Hlog.
    rewrite readOTP_run in *. cbv zeta in *.
    unfold value, device, events, received_data in *. cbn [fst snd] in *.
    set (txs := map frame_read_otp (seqZ ADDR_OTPCRC 4)) in *.
    rewrite received_framed_span by apply answers_length.
    destruct (crc_of_answers (answers (_ss_pin this) txs d).1 crcbuf)
      as (b0 & b1 & b2 & b3 & Hbs & Hlor & Hsum);
      [rewrite answers_length; reflexivity | apply answers_u8 | exact Hbuf |].
    exists b0, b1, b2, b3.
    split; [exact Hbs |]. split; [reflexivity |]. split; [reflexivity |].
    split; [exact Hlog |]. split; [exact Hbs |]. split; [exact Hlor | exact Hsum].
Qed.

End CrcAccessors.

(** ** Labels *)

Lemma scan_fold (s : list Z) (l : list nat) : forall acc,
  fold_left (fun z i => if nth i s 0 =? 0 then true else z) l acc
  = acc || existsb (fun i => nth i s 0 =? 0) l.
Proof.
  induction l as [| i l IH]; intros acc; cbn [fold_left existsb].
  - symmetry. apply orb_false_r.
  - rewrite IH. destruct (nth i s 0 =? 0), acc; reflexivity.
Qed.

Lemma scan_stretch bs rest : forall pre,
  existsb (fun i => nth i (pre ++ bs ++ rest) 0 =? 0) (seq (length pre) (length bs))
  = existsb (fun b => b =? 0) bs.
Proof.
  induction bs as [| b bs IH]; intros pre; cbn [length seq existsb]; [reflexivity |].
  cbn [app]. rewrite nth_middle. f_equal.
  specialize (IH (pre ++ [b])).
  rewrite length_app, <- app_assoc in IH. cbn [length app] in IH.
  rewrite Nat.add_1_r in IH. exact IH.
Qed.

Lemma scan_filled bs rest :
  fold_left (fun z i => if nth i (bs ++ rest) 0 =? 0 then true else z)
            (seq 0 (length bs)) false
  = existsb (fun b => b =? 0) bs.
Proof. rewrite scan_fold. cbn [orb]. apply (scan_stretch bs rest []). Qed.

Lemma cstr_until_zero pre post :
  Forall (fun b => b <> 0) pre ->
  String_of_cstr (pre ++ 0 :: post) = string_of_bytes pre.
Proof.
  induction 1 as [| b pre Hb Hpre IH]; cbn [app String_of_cstr string_of_bytes fold_right].
  - reflexivity.
  - destruct (Z.eqb_spec b 0) as [-> | _]; [contradiction |].
    f_equal. exact IH.
Qed.

Lemma existsb_zero_false bs :
  Forall (fun b => b <> 0) bs -> existsb (fun b => b =? 0) bs = false.
Proof.
  induction 1 as [| b bs Hb Hbs IH]; cbn [existsb]; [reflexivity |].
  rewrite IH. destruct (Z.eqb_spec b 0); [contradiction | reflexivity].
Qed.

Lemma existsb_zero_true bs (k : nat) :
  bs !! k = Some 0 -> existsb (fun b => b =? 0) bs = true.
Proof.
  intros Hk. apply existsb_exists. exists 0. split; [| reflexivity].
  apply list_elem_of_In. apply list_elem_of_lookup. exists k. exact Hk.
Qed.

(** The label, given the bytes that [readMemory] stored in front of what the
    array held before. *)
Lemma label_of_filled bs rest :
  (0 < length (bs ++ rest))%nat ->
  (Forall (fun b => b <> 0) bs ->
   label_of (Z.of_nat (length bs)) (bs ++ rest) = EmptyString)
  /\ (forall k : nat,
        bs !! k = Some 0 ->
        (forall j : nat, (j < k)%nat -> bs !! j <> Some 0) ->
        label_of (Z.of_nat (length bs)) (bs ++ rest) = string_of_bytes (take k bs)).
Proof.
  intros Hne. unfold label_of. cbv zeta. rewrite Nat2Z.id, scan_filled. split.
  - intros Hnz. rewrite existsb_zero_false by exact Hnz. cbn [negb].
    destruct (bs ++ rest) as [| c tl]; [cbn [length] in Hne; lia |].
    cbn [insert list_insert String_of_cstr]. reflexivity.
  - intros k Hk Hfirst. rewrite (existsb_zero_true bs k Hk). cbn [negb].
    rewrite <- (take_drop_middle bs k 0 Hk) at 1.
    rewrite <- app_assoc. cbn [app].
    apply cstr_until_zero.
    apply Forall_lookup. intros j b Hj Hb. subst b.
    apply lookup_take_Some in Hj as [Hj Hlt].
    exact (Hfirst j Hlt Hj).
Qed.

Section Labels.

Context {D : Type} {slave : Slave D}.

(** C5.  [readLabel] sends the memory-read frames for the [min length 32]
    addresses from [address] on, in one claim of the bus, and leaves the
    device as these pulses leave it.  With [bytes] the data bytes with which
    the device answers these frames, in this order, it returns the empty
    string if none of them is zero, and the bytes in front of the first zero
    byte if there is one, whatever the device answered behind it and
    whatever the array held before.  It returns a string in every case. *)
Theorem readLabel_spec (this : InficonSpot) (address len : Z) (s : list Z) (d : D) :
  0 <= len < 2 ^ 8 ->
  length s = 32%nat ->
  let n := Z.min len 32 in
  let txs := map frame_read_memory (seqZ address n) in
  let a := answers (_ss_pin this) txs d in
  let r := readLabel this address len s d in
  let bytes := map (fun rx => nth 2 rx 0) a.1 in
  events r = framed_span (settings this) (_ss_pin this) txs a.1
  /\ device r = a.2
  /\ received_data (events r) = bytes
  /\ span_log (settings this) (_ss_pin this) txs (events r)
  /\ length bytes = Z.to_nat n
  /\ (Forall (fun b => b <> 0) bytes -> value r = EmptyString)
  /\ (forall k : nat,
        bytes !! k = Some 0 ->
        (forall j : nat, (j < k)%nat -> bytes !! j <> Some 0) ->
        value r = string_of_bytes (take k bytes)).
Proof.
  intros Hlen Hs n txs a r bytes. subst bytes r.
  assert (Hn : (if 32 <? len then 32 else len) = n).
  { subst n. destruct (Z.ltb_spec 32 len); lia. }
  change (readLabel this address len s d)
    with (bind (readMemory this address s (if 32 <? len then 32 else len))
               (fun s' => ret (label_of (if 32 <? len then 32 else len) s')) d).
  rewrite Hn, bind_ret_run.
  pose proof (readMemory_log this address s n d) as Hlog.
  rewrite readMemory_run in *. cbv zeta in *.
  unfold value, device, events, received_data in *. cbn [fst snd] in *.
  fold txs in Hlog |- *. fold a in Hlog |- *.
  assert (Hla : length a.1 = Z.to_nat n).
  { subst a txs. rewrite answers_length, length_map. apply length_seqZ. }
  rewrite received_framed_span by (subst a; apply answers_length).
  set (bs := map (fun rx => nth 2 rx 0) a.1) in *.
  assert (Hlb : length bs = Z.to_nat n) by (subst bs; rewrite length_map; exact Hla).
  split; [reflexivity |]. split; [reflexivity |]. split; [reflexivity |].
  split; [exact Hlog |]. split; [exact Hlb |].
  rewrite store_from_spec by lia.
  rewrite take_0. cbn [app Nat.add].
  assert (Hnb : n = Z.of_nat (length bs)) by lia.
  rewrite Hnb.
  apply label_of_filled.
  rewrite length_app, length_drop. lia.
Qed.

End Labels.

(** ** Unit conversion *)

Lemma reinterpret_i32_u24 x : 0 <= x < 2 ^ 24 -> Int.reinterpret_i32 x = x.
Proof.
  intros Hx. unfold Int.reinterpret_i32.
  destruct (Z.ltb_spec x (2 ^ 31)); lia.
Qed.

Lemma sign_extend24_low x : 0 <= x < 2 ^ 23 -> Int.sign_extend24 x = x.
Proof.
  intros Hx. unfold Int.sign_extend24.
  rewrite (testbit_above x 23) by lia. apply Z.mod_small. lia.
Qed.

Lemma sign_extend24_high x :
  2 ^ 23 <= x < 2 ^ 24 -> Int.sign_extend24 x = x - 2 ^ 24.
Proof.
  intros Hx. unfold Int.sign_extend24.
  assert (Hbit : Z.testbit x 23 = true).
  { rewrite Z.testbit_true by lia.
    replace (x / 2 ^ 23) with 1; [reflexivity |].
    apply (Z.div_unique x (2 ^ 23) 1 (x - 2 ^ 23)); lia. }
  rewrite Hbit, Z.mod_small by lia. reflexivity.
Qed.

(** The overload without [fullscale] uses the stored one. *)
Lemma convertPressure_stored_eq this result :
  convertPressure_stored this result = convertPressure result (_fullscale this).
Proof. reflexivity. Qed.

(** On a register value the cast changes nothing: the number converted is
    the unsigned content of the register, never a negative one. *)
Lemma convert_register_unsigned result fullscale :
  0 <= result < 2 ^ 24 ->
  convertPressure result fullscale
  = F32.mul (F32.div (F32.of_Z result) F32.c2097152) fullscale
  /\ convertTemperature result
     = F32.mul (F32.div (F32.of_Z result) F32.c2097152) (F32.of_Z 25).
Proof.
  intros Hr. unfold convertPressure, convertTemperature. cbv zeta.
  rewrite reinterpret_i32_u24 by exact Hr. split; reflexivity.
Qed.

(** Where bit 23 is clear, this is the 24-bit two's-complement reading. *)
Lemma convert_nonnegative_field result fullscale :
  0 <= result < 2 ^ 23 ->
  convertPressure result fullscale
  = F32.mul (F32.div (F32.of_Z (Int.sign_extend24 result)) F32.c2097152) fullscale
  /\ convertTemperature result
     = F32.mul (F32.div (F32.of_Z (Int.sign_extend24 result)) F32.c2097152)
               (F32.of_Z 25).
Proof.
  intros Hr. rewrite sign_extend24_low by exact Hr.
  apply convert_register_unsigned. lia.
Qed.

(** Where bit 23 is set, the number converted is 2^24 above it. *)
Lemma reinterpret_negative_field result :
  2 ^ 23 <= result < 2 ^ 24 ->
  Int.reinterpret_i32 result = Int.sign_extend24 result + 2 ^ 24
  /\ Int.sign_extend24 result < 0 <= Int.reinterpret_i32 result.
Proof.
  intros Hr. rewrite reinterpret_i32_u24, sign_extend24_high by lia. lia.
Qed.

Lemma f32_mul_zero_l s x :
  F32.is_finite x = true -> F32.eqb (F32.mul (S754_zero s) x) (F32.of_Z 0) = true.
Proof.
  destruct x as [sx | sx | | sx m e]; intros Hx; try discriminate Hx; reflexivity.
Qed.

(** A raw value of 0 converts to zero, whatever the finite full scale. *)
Lemma convertPressure_zero fullscale :
  F32.is_finite fullscale = true ->
  F32.eqb (convertPressure 0 fullscale) (F32.of_Z 0) = true.
Proof. intros Hx. apply (f32_mul_zero_l false). exact Hx. Qed.

(** 2^20 at a stored full scale of 100 is 50. *)
Example convertPressure_stored_half_scale :
  convertPressure_stored (setFullscale InficonSpot_default (F32.of_Z 100)) 0x100000
  = F32.of_Z 50.
Proof. vm_compute. reflexivity. Qed.

(** 0x200000, which is 2^21, is 25 degrees. *)
Example convertTemperature_200000 : convertTemperature 0x200000 = F32.of_Z 25.
Proof. vm_compute. reflexivity. Qed.

(** C1.  The 24-bit pattern 0xE00000 stands for -2097152 in two's
    complement, and the pressure at full scale 1 would be -1.  The cast in
    [convertPressure] reads the sign from bit 31, which no register value
    has set: the number converted is 14680064 and the pressure is 7. *)
Theorem convertPressure_E00000 :
  Int.sign_extend24 0xE00000 = -2097152
  /\ Int.reinterpret_i32 0xE00000 = 14680064
  /\ convertPressure 0xE00000 (F32.of_Z 1) = F32.of_Z 7
  /\ F32.eqb (convertPressure 0xE00000 (F32.of_Z 1)) (F32.of_Z (-1)) = false.
Proof. vm_compute. repeat split; reflexivity. Qed.

(** C7.  [convertTemperature] casts as [convertPressure] does: the 24-bit
    pattern 0xE00000, which stands for -2097152 and so for -25 degrees, is
    converted to 175 degrees. *)
Theorem convertTemperature_E00000 :
  Int.sign_extend24 0xE00000 = -2097152
  /\ Int.reinterpret_i32 0xE00000 = 14680064
  /\ convertTemperature 0xE00000 = F32.of_Z 175
  /\ F32.eqb (convertTemperature 0xE00000) (F32.of_Z (-25)) = false.
Proof. vm_compute. repeat split; reflexivity. Qed.

(** ** The theorems at work on the mock sensors *)

Example readLabel_SPOT :
  value (readLabel (slave := rom_slave 10) spot 0 16 (repeat 0xAA 32) rom_SPOT)
  = "SPOT"%string.
Proof. vm_compute. reflexivity. Qed.

Example readLabel_unterminated :
  value (readLabel (slave := rom_slave 10) spot 5 4 (repeat 0xAA 32) rom_SPOT)
  = EmptyString.
Proof. vm_compute. reflexivity. Qed.

Example readOtpCrc_fixture :
  value (readOtpCrc (slave := rom_slave 10) 8 spot [0; 0; 0; 0] rom_SPOT)
  = 0x04030201.
Proof. vm_compute. reflexivity. Qed.

Lemma register_frames_witness :
  0 <= 5 <= 63
  /\ 0 <= 0xABCDEF < 2 ^ 24
  /\ (exists rx,
        events (readRegister (slave := echo_slave 10) spot 5 echo_idle)
        = framed_span (settings spot) (_ss_pin spot) [[Z.lor 5 0x40; 0; 0; 0]] [rx])
  /\ (exists b1 b2 b3 rx,
        events (writeRegister (slave := echo_slave 10) spot 5 0xABCDEF echo_idle)
        = framed_span (settings spot) (_ss_pin spot)
            [[Z.lor 5 0xc0; b1; b2; b3]] [rx]
        /\ Int.is_u8 b1 /\ Int.is_u8 b2 /\ Int.is_u8 b3
        /\ b1 * 2 ^ 16 + b2 * 2 ^ 8 + b3 = 0xABCDEF).
Proof.
  split; [lia |]. split; [lia |].
  apply (register_frames (slave := echo_slave 10) spot 5 0xABCDEF echo_idle); lia.
Defined.

Lemma write_read_roundtrip_witness :
  echoes_writes (slave := echo_slave 10) (_ss_pin spot)
  /\ 0 <= 5 <= 63
  /\ 0 <= 0xABCDEF < 2 ^ 24
  /\ value (bind (writeRegister (slave := echo_slave 10) spot 5 0xABCDEF)
                 (fun _ => readRegister (slave := echo_slave 10) spot 5)
                 echo_idle) = 0xABCDEF.
Proof.
  split; [apply echo_slave_echoes |]. split; [lia |]. split; [lia |].
  apply (write_read_roundtrip (slave := echo_slave 10) spot 5 0xABCDEF echo_idle);
    [apply echo_slave_echoes | lia | lia].
Defined.

Lemma span_one_claim_N_pulses_witness :
  1 <= 3
  /\ (length (seqZ 0xFFE 3) = Z.to_nat 3
      /\ (forall k, 0 <= k < 3 -> seqZ 0xFFE 3 !! Z.to_nat k = Some (0xFFE + k))
      /\ span_log (settings spot) (_ss_pin spot)
           (map frame_read_memory (seqZ 0xFFE 3))
           (events (readMemory (slave := rom_slave 10) spot 0xFFE [7; 8; 9] 3 rom_SPOT))
      /\ span_log (settings spot) (_ss_pin spot)
           (map (fun k => frame_write_memory (0xFFE + k)
                            (Int.to_u8 (nth (Z.to_nat k) [7; 8; 9] 0)))
                (seqZ 0 3))
           (events (writeMemory (slave := rom_slave 10) spot 0xFFE [7; 8; 9] 3 rom_SPOT))
      /\ span_log (settings spot) (_ss_pin spot)
           (map frame_read_otp (seqZ 0xFFE 3))
           (events (readOTP (slave := rom_slave 10) spot 0xFFE [7; 8; 9] 3 rom_SPOT))).
Proof.
  split; [lia |].
  apply (span_one_claim_N_pulses (slave := rom_slave 10) spot 0xFFE [7; 8; 9] 3 rom_SPOT).
  lia.
Defined.

Lemma span_opcodes_witness :
  0 <= 0x1FFF < 2 ^ 16
  /\ 0 <= 0 < 1
  /\ sent (events (readMemory (slave := rom_slave 10) spot 0x1FFF [0] 1 rom_SPOT))
       !! Z.to_nat 0
     = Some [Z.lor 0x10 (Z.land (Z.shiftr (0x1FFF + 0) 8) 0x0f);
             Z.land (0x1FFF + 0) 0xff; 0]
  /\ (exists b,
        sent (events (writeMemory (slave := rom_slave 10) spot 0x1FFF [0] 1 rom_SPOT))
          !! Z.to_nat 0
        = Some [Z.lor 0x90 (Z.land (Z.shiftr (0x1FFF + 0) 8) 0x0f);
                Z.land (0x1FFF + 0) 0xff; b])
  /\ sent (events (readOTP (slave := rom_slave 10) spot 0x1FFF [0] 1 rom_SPOT))
       !! Z.to_nat 0
     = Some [Z.lor 0x20 (Z.land (Z.shiftr (0x1FFF + 0) 8) 0x1f);
             Z.land (0x1FFF + 0) 0xff; 0].
Proof.
  split; [lia |]. split; [lia |].
  apply (span_opcodes (slave := rom_slave 10) spot 0x1FFF [0] 1 0 rom_SPOT); lia.
Defined.

Lemma span_empty_witness :
  0 <= 0
  /\ readMemory (slave := rom_slave 10) spot 0x100 [7; 8; 9] 0 rom_SPOT
     = ([7; 8; 9], rom_SPOT, [BeginTransaction (settings spot); EndTransaction])
  /\ writeMemory (slave := rom_slave 10) spot 0x100 [7; 8; 9] 0 rom_SPOT
     = ([7; 8; 9], rom_SPOT, [BeginTransaction (settings spot); EndTransaction])
  /\ readOTP (slave := rom_slave 10) spot 0x100 [7; 8; 9] 0 rom_SPOT
     = ([7; 8; 9], rom_SPOT, [BeginTransaction (settings spot); EndTransaction]).
Proof.
  split; [lia |].
  apply (span_empty (slave := rom_slave 10) spot 0x100 [7; 8; 9] 0 rom_SPOT). lia.
Defined.

Lemma crc_little_endian_witness :
  length [0; 0; 0; 0] = 4%nat
  /\ (let txs := map frame_read_memory (seqZ 8 4) in
      let a := answers (slave := rom_slave 10) (_ss_pin spot) txs rom_SPOT in
      let r := readSramCrc (slave := rom_slave 10) 8 spot [0; 0; 0; 0] rom_SPOT in
      exists b0 b1 b2 b3,
        map (fun rx => nth 2 rx 0) a.1 = [b0; b1; b2; b3]
        /\ events r = framed_span (settings spot) (_ss_pin spot) txs a.1
        /\ device r = a.2
        /\ span_log (settings spot) (_ss_pin spot) txs (events r)
        /\ received_data (events r) = [b0; b1; b2; b3]
        /\ value r
           = Z.lor (Z.lor (Z.lor (Z.shiftl b3 24) (Z.shiftl b2 16)) (Z.shiftl b1 8)) b0
        /\ value r = b0 + b1 * 2 ^ 8 + b2 * 2 ^ 16 + b3 * 2 ^ 24)
  /\ (let txs := map frame_read_otp (seqZ 8 4) in
      let a := answers (slave := rom_slave 10) (_ss_pin spot) txs rom_SPOT in
      let r := readOtpCrc (slave := rom_slave 10) 8 spot [0; 0; 0; 0] rom_SPOT in
      exists b0 b1 b2 b3,
        map (fun rx => nth 2 rx 0) a.1 = [b0; b1; b2; b3]
        /\ events r = framed_span (settings spot) (_ss_pin spot) txs a.1
        /\ device r = a.2
        /\ span_log (settings spot) (_ss_pin spot) txs (events r)
        /\ received_data (events r) = [b0; b1; b2; b3]
        /\ value r
           = Z.lor (Z.lor (Z.lor (Z.shiftl b3 24) (Z.shiftl b2 16)) (Z.shiftl b1 8)) b0
        /\ value r = b0 + b1 * 2 ^ 8 + b2 * 2 ^ 16 + b3 * 2 ^ 24).
Proof.
  split; [reflexivity |].
  apply (crc_little_endian (slave := rom_slave 10) 8 8 spot [0; 0; 0; 0] rom_SPOT).
  reflexivity.
Defined.

Lemma readLabel_spec_witness :
  0 <= 16 < 2 ^ 8
  /\ length (repeat 0xAA 32) = 32%nat
  /\ (let n := Z.min 16 32 in
      let txs := map frame_read_memory (seqZ 0 n) in
      let a := answers (slave := rom_slave 10) (_ss_pin spot) txs rom_SPOT in
      let r := readLabel (slave := rom_slave 10) spot 0 16 (repeat 0xAA 32) rom_SPOT in
      let bytes := map (fun rx => nth 2 rx 0) a.1 in
      events r = framed_span (settings spot) (_ss_pin spot) txs a.1
      /\ device r = a.2
      /\ received_data (events r) = bytes
      /\ span_log (settings spot) (_ss_pin spot) txs (events r)
      /\ length bytes = Z.to_nat n
      /\ (Forall (fun b => b <> 0) bytes -> value r = EmptyString)
      /\ (forall k : nat,
            bytes !! k = Some 0 ->
            (forall j : nat, (j < k)%nat -> bytes !! j <> Some 0) ->
            value r = string_of_bytes (take k bytes))).
Proof.
  split; [lia |]. split; [reflexivity |].
  apply (readLabel_spec (slave := rom_slave 10) spot 0 16 (repeat 0xAA 32) rom_SPOT);
    [lia | reflexivity].
Defined.

(** * Further properties of the driver *)

(** ** Commands and register frames *)

Lemma lor_bit_set x n :
  0 <= n -> Z.testbit x n = true -> Z.lor x (2 ^ n) = x.
Proof.
  intros Hn Hbit. apply Z.bits_inj'. intros i Hi.
  rewrite Z.lor_spec, Z.pow2_bits_eqb by exact Hn.
  destruct (Z.eqb_spec n i) as [<- | _].
  - rewrite Hbit. reflexivity.
  - apply orb_false_r.
Qed.

Lemma testbit_top x n : 0 <= n -> 2 ^ n <= x < 2 ^ (n + 1) -> Z.testbit x n = true.
Proof.
  intros Hn Hx. rewrite Z.testbit_true by exact Hn.
  rewrite Z.pow_add_r in Hx by lia.
  assert (0 < 2 ^ n) by (apply Z.pow_pos_nonneg; lia).
  replace (x / 2 ^ n) with 1; [reflexivity |].
  apply (Z.div_unique x (2 ^ n) 1 (x - 2 ^ n)); lia.
Qed.

(** The three payload bytes of [writeRegister] only see bits 0 to 23. *)
Lemma payload_mod_2_24 data :
  Z.land (Z.shiftr (data mod 2 ^ 24) 16) 0xff = Z.land (Z.shiftr data 16) 0xff
  /\ Z.land (Z.shiftr (data mod 2 ^ 24) 8) 0xff = Z.land (Z.shiftr data 8) 0xff
  /\ Z.land (Z.shiftr (data mod 2 ^ 24) 0) 0xff = Z.land (Z.shiftr data 0) 0xff.
Proof.
  change 0xff with (Z.ones 8).
  rewrite !Z.land_ones, !Z.shiftr_div_pow2 by lia.
  repeat split; Z.div_mod_to_equations; lia.
Qed.

Section Commands.

Context {D : Type} {slave : Slave D}.

Lemma sendCommand_run (this : InficonSpot) (cmd : Z) (d : D) :
  sendCommand this cmd d
  = (tt, (transaction (_ss_pin this) [Int.to_u8 cmd] d).2,
     framed_span (settings this) (_ss_pin this) [[Int.to_u8 cmd]]
       [(transaction (_ss_pin this) [Int.to_u8 cmd] d).1]).
Proof.
  unfold sendCommand, bind, SPI_beginTransaction, SPI_endTransaction,
    digitalWrite, SPI_transfer, transaction.
  destruct (exchange [Int.to_u8 cmd] (on_pin (_ss_pin this) LOW d)) as [rx d'].
  reflexivity.
Qed.

(** X2.  [writeRegister] drops bits 24 to 31 of the value: with the value
    reduced modulo 2^24 it is the same computation. *)
Theorem writeRegister_low_24_bits (this : InficonSpot) (reg data : Z) (d : D) :
  writeRegister this reg data d = writeRegister this reg (data mod 2 ^ 24) d.
Proof.
  rewrite !writeRegister_run. cbv zeta.
  destruct (payload_mod_2_24 data) as (-> & -> & ->). reflexivity.
Qed.

(** X3.  The register index is not checked.  An index from 128 to 255 given
    to [readRegister] puts the frame of [writeRegister] with the value 0 on
    the bus: the device sees a write of zero to that register. *)
Theorem readRegister_index_128_writes (this : InficonSpot) (reg : Z) (d : D) :
  128 <= reg < 256 ->
  events (readRegister this reg d) = events (writeRegister this reg 0 d)
  /\ device (readRegister this reg d) = device (writeRegister this reg 0 d)
  /\ sent (events (readRegister this reg d)) = [[Z.lor reg 0xc0; 0; 0; 0]].
Proof.
  intros Hreg.
  assert (Hop : Z.lor reg 0x40 = Z.lor reg 0xc0).
  { change 0xc0 with (Z.lor 0x40 (2 ^ 7)).
    rewrite Z.lor_assoc, (Z.lor_comm reg 0x40), <- Z.lor_assoc.
    rewrite (lor_bit_set reg 7); [reflexivity | lia |].
    apply testbit_top; lia. }
  rewrite readRegister_run, writeRegister_run. cbv zeta.
  unfold events, device. cbn [fst snd]. rewrite Hop.
  change (Int.to_u8 (Z.land (Z.shiftr 0 16) 255)) with 0.
  change (Int.to_u8 (Z.land (Z.shiftr 0 8) 255)) with 0.
  change (Int.to_u8 (Z.land (Z.shiftr 0 0) 255)) with 0.
  split; [reflexivity |]. split; [reflexivity |].
  rewrite to_u8_small; [reflexivity |].
  apply lor_u8; unfold Int.is_u8; lia.
Qed.

End Commands.

Lemma readRegister_index_128_writes_witness :
  128 <= 0x85 < 256
  /\ events (readRegister (slave := echo_slave 10) spot 0x85 echo_idle)
     = events (writeRegister (slave := echo_slave 10) spot 0x85 0 echo_idle)
  /\ device (readRegister (slave := echo_slave 10) spot 0x85 echo_idle)
     = device (writeRegister (slave := echo_slave 10) spot 0x85 0 echo_idle)
  /\ sent (events (readRegister (slave := echo_slave 10) spot 0x85 echo_idle))
     = [[Z.lor 0x85 0xc0; 0; 0; 0]].
Proof.
  split; [lia |].
  apply (readRegister_index_128_writes (slave := echo_slave 10) spot 0x85 echo_idle).
  lia.
Defined.

(** ** Opcodes and addresses on the wire *)

(** Or-ing a field below bit [n] into a multiple of 2^[n] adds it. *)
Lemma lor_high_low h l n :
  0 <= n -> 0 <= l < 2 ^ n -> Z.lor (h * 2 ^ n) l = h * 2 ^ n + l.
Proof.
  intros Hn Hl. apply Z.or_to_plus. apply Z.bits_inj'. intros i Hi.
  rewrite Z.land_spec, Z.bits_0.
  destruct (Z_lt_le_dec i n).
  - rewrite Z.mul_pow2_bits_low by lia. reflexivity.
  - rewrite (testbit_above l n) by lia. apply andb_false_r.
Qed.

Lemma memory_opcode c x :
  Z.lor (c * 2 ^ 4) (Z.land x 0x0f) = c * 2 ^ 4 + x mod 2 ^ 4
  /\ 0 <= x mod 2 ^ 4 < 2 ^ 4.
Proof.
  change 0x0f with (Z.ones 4). rewrite Z.land_ones by lia.
  assert (H : 0 <= x mod 2 ^ 4 < 2 ^ 4) by (apply Z.mod_pos_bound; lia).
  split; [apply lor_high_low; lia | exact H].
Qed.

Lemma otp_opcode x :
  Z.lor 0x20 (Z.land x 0x1f) = 0x20 + x mod 2 ^ 5
  /\ 0 <= x mod 2 ^ 5 < 2 ^ 5.
Proof.
  change 0x1f with (Z.ones 5). rewrite Z.land_ones by lia.
  assert (H : 0 <= x mod 2 ^ 5 < 2 ^ 5) by (apply Z.mod_pos_bound; lia).
  split; [apply (lor_high_low 1 _ 5); lia | exact H].
Qed.

Lemma register_opcode c reg :
  0 <= reg < 2 ^ 6 -> Z.lor reg (c * 2 ^ 6) = c * 2 ^ 6 + reg.
Proof. intros Hr. rewrite Z.lor_comm. apply lor_high_low; lia. Qed.

Lemma frame_read_memory_decode a :
  0x10 <= nth 0 (frame_read_memory a) 0 < 0x20
  /\ memory_address_of (frame_read_memory a) = a mod 2 ^ 12.
Proof.
  unfold memory_address_of, frame_read_memory. cbn [nth].
  destruct (memory_opcode 1 (Z.shiftr a 8)) as [Hop Hr].
  change (1 * 2 ^ 4) with 0x10 in Hop. rewrite Hop. split; [lia |].
  change 0x0f with (Z.ones 4). change 0xff with (Z.ones 8).
  rewrite !Z.land_ones, Z.shiftl_mul_pow2, Z.shiftr_div_pow2 by lia.
  rewrite lor_high_low by (try apply Z.mod_pos_bound; lia).
  Z.div_mod_to_equations. lia.
Qed.

Lemma frame_write_memory_decode a b :
  0x90 <= nth 0 (frame_write_memory a b) 0 < 0xa0
  /\ memory_address_of (frame_write_memory a b) = a mod 2 ^ 12.
Proof.
  unfold memory_address_of, frame_write_memory. cbn [nth].
  destruct (memory_opcode 9 (Z.shiftr a 8)) as [Hop Hr].
  change (9 * 2 ^ 4) with 0x90 in Hop. rewrite Hop. split; [lia |].
  change 0x0f with (Z.ones 4). change 0xff with (Z.ones 8).
  rewrite !Z.land_ones, Z.shiftl_mul_pow2, Z.shiftr_div_pow2 by lia.
  rewrite lor_high_low by (try apply Z.mod_pos_bound; lia).
  Z.div_mod_to_equations. lia.
Qed.

Lemma frame_read_otp_decode a :
  0x20 <= nth 0 (frame_read_otp a) 0 < 0x40
  /\ otp_address_of (frame_read_otp a) = a mod 2 ^ 13.
Proof.
  unfold otp_address_of, frame_read_otp. cbn [nth].
  destruct (otp_opcode (Z.shiftr a 8)) as [Hop Hr].
  rewrite Hop. split; [lia |].
  change 0x1f with (Z.ones 5). change 0xff with (Z.ones 8).
  rewrite !Z.land_ones, Z.shiftl_mul_pow2, Z.shiftr_div_pow2 by lia.
  rewrite lor_high_low by (try apply Z.mod_pos_bound; lia).
  Z.div_mod_to_equations. lia.
Qed.

Lemma Forall_map_frames {A : Type} (P : list Z -> Prop) (f : A -> list Z) l :
  (forall a, P (f a)) -> Forall P (map f l).
Proof. intros H. induction l; constructor; auto. Qed.

Lemma frames_alias a b :
  frame_read_memory (a + 2 ^ 12) = frame_read_memory a
  /\ frame_write_memory (a + 2 ^ 12) b = frame_write_memory a b
  /\ frame_read_otp (a + 2 ^ 13) = frame_read_otp a.
Proof.
  unfold frame_read_memory, frame_write_memory, frame_read_otp.
  change 0x0f with (Z.ones 4). change 0x1f with (Z.ones 5).
  change 0xff with (Z.ones 8).
  rewrite !Z.land_ones, !Z.shiftr_div_pow2 by lia.
  assert (H8 : (a + 2 ^ 12) mod 2 ^ 8 = a mod 2 ^ 8)
    by (Z.div_mod_to_equations; lia).
  assert (H8' : (a + 2 ^ 13) mod 2 ^ 8 = a mod 2 ^ 8)
    by (Z.div_mod_to_equations; lia).
  assert (H4 : ((a + 2 ^ 12) / 2 ^ 8) mod 2 ^ 4 = (a / 2 ^ 8) mod 2 ^ 4)
    by (Z.div_mod_to_equations; lia).
  assert (H5 : ((a + 2 ^ 13) / 2 ^ 8) mod 2 ^ 5 = (a / 2 ^ 8) mod 2 ^ 5)
    by (Z.div_mod_to_equations; lia).
  rewrite H8, H8', H4, H5. repeat split; reflexivity.
Qed.

Section Wire.

Context {D : Type} {slave : Slave D}.

(** X4.  The first byte of a frame tells the operation: it is in 0x40..0x7F
    for a register read and in 0xC0..0xFF for a register write (index 0 to
    63), in 0x10..0x1F for a memory read, in 0x90..0x9F for a memory write
    and in 0x20..0x3F for an OTP read, whatever the address and the length;
    the reset command 0x88 is in none of these ranges. *)
Theorem opcode_classes (this : InficonSpot) (reg v A : Z) (data : list Z)
    (N : Z) (d : D) :
  0 <= reg <= 63 ->
  Forall (fun tx => 0x40 <= nth 0 tx 0 < 0x80)
         (sent (events (readRegister this reg d)))
  /\ Forall (fun tx => 0xc0 <= nth 0 tx 0 < 0x100)
            (sent (events (writeRegister this reg v d)))
  /\ Forall (fun tx => 0x10 <= nth 0 tx 0 < 0x20)
            (sent (events (readMemory this A data N d)))
  /\ Forall (fun tx => 0x90 <= nth 0 tx 0 < 0xa0)
            (sent (events (writeMemory this A data N d)))
  /\ Forall (fun tx => 0x20 <= nth 0 tx 0 < 0x40)
            (sent (events (readOTP this A data N d)))
  /\ sent (events (resetSensor this d)) = [[0x88]].
Proof.
  intros Hreg.
  rewrite readRegister_run, writeRegister_run, readMemory_run,
    writeMemory_run, readOTP_run. cbv zeta.
  unfold resetSensor. rewrite sendCommand_run.
  unfold events. cbn [snd].
  rewrite !sent_framed_span by apply answers_length.
  rewrite !register_opcode_u8 by (unfold Int.is_u8; lia).
  split.
  { unfold sent. cbn [flat_map app]. constructor; [| constructor]. cbn [nth].
    pose proof (register_opcode 1 reg) as Hop.
    change (1 * 2 ^ 6) with 0x40 in Hop. rewrite Hop; lia. }
  split.
  { unfold sent. cbn [flat_map app]. constructor; [| constructor]. cbn [nth].
    pose proof (register_opcode 3 reg) as Hop.
    change (3 * 2 ^ 6) with 0xc0 in Hop. rewrite Hop; lia. }
  split.
  { apply Forall_map_frames. intros a. apply frame_read_memory_decode. }
  split.
  { unfold write_frames. apply Forall_map_frames. intros a.
    apply frame_write_memory_decode. }
  split.
  { apply Forall_map_frames. intros a. apply frame_read_otp_decode. }
  reflexivity.
Qed.

(** X5.  The [i]-th frame of a span started at [A] names the address
    [A + i] reduced modulo 2^12 for the memory and modulo 2^13 for the OTP:
    the address is cut to the width of the region, not checked. *)
Theorem span_addresses_on_wire (this : InficonSpot) (A : Z) (data : list Z)
    (N i : Z) (d : D) :
  0 <= i < N ->
  (exists tx,
     sent (events (readMemory this A data N d)) !! Z.to_nat i = Some tx
     /\ memory_address_of tx = (A + i) mod 2 ^ 12)
  /\ (exists tx,
        sent (events (writeMemory this A data N d)) !! Z.to_nat i = Some tx
        /\ memory_address_of tx = (A + i) mod 2 ^ 12)
  /\ (exists tx,
        sent (events (readOTP this A data N d)) !! Z.to_nat i = Some tx
        /\ otp_address_of tx = (A + i) mod 2 ^ 13).
Proof.
  intros Hi.
  rewrite readMemory_run, writeMemory_run, readOTP_run. cbv zeta.
  unfold events. cbn [snd].
  rewrite !sent_framed_span by apply answers_length.
  unfold write_frames.
  change (map ?f ?l) with (f <$> l).
  rewrite !list_lookup_fmap, !lookup_seqZ_lt by lia.
  rewrite Z2Nat.id by lia. cbn [fmap option_fmap option_map].
  split; [eexists; split; [reflexivity | apply frame_read_memory_decode] |].
  split; [eexists; split; [reflexivity |] |
          eexists; split; [reflexivity | apply frame_read_otp_decode]].
  rewrite Z.add_0_l. apply frame_write_memory_decode.
Qed.

(** X6.  Addresses 2^12 apart are the same memory cell to the driver, and
    addresses 2^13 apart the same OTP cell: the operations are the same
    computations. *)
Theorem span_address_aliases (this : InficonSpot) (A : Z) (data : list Z)
    (N : Z) (d : D) :
  readMemory this (A + 2 ^ 12) data N d = readMemory this A data N d
  /\ writeMemory this (A + 2 ^ 12) data N d = writeMemory this A data N d
  /\ readOTP this (A + 2 ^ 13) data N d = readOTP this A data N d.
Proof.
  rewrite !readMemory_run, !writeMemory_run, !readOTP_run. cbv zeta.
  assert (Hm : map frame_read_memory (seqZ (A + 2 ^ 12) N)
               = map frame_read_memory (seqZ A N)).
  { rewrite (Z.add_comm A), <- fmap_add_seqZ.
    change (Z.add (2 ^ 12) <$> seqZ A N) with (map (Z.add (2 ^ 12)) (seqZ A N)).
    rewrite map_map. apply map_ext. intros a.
    rewrite Z.add_comm. apply (frames_alias a 0). }
  assert (Ho : map frame_read_otp (seqZ (A + 2 ^ 13) N)
               = map frame_read_otp (seqZ A N)).
  { rewrite (Z.add_comm A), <- fmap_add_seqZ.
    change (Z.add (2 ^ 13) <$> seqZ A N) with (map (Z.add (2 ^ 13)) (seqZ A N)).
    rewrite map_map. apply map_ext. intros a.
    rewrite Z.add_comm. apply (frames_alias a 0). }
  assert (Hw : write_frames (A + 2 ^ 12) data N = write_frames A data N).
  { unfold write_frames. apply map_ext. intros i.
    replace (A + 2 ^ 12 + i) with (A + i + 2 ^ 12) by lia.
    apply frames_alias. }
  rewrite Hm, Ho, Hw. repeat split; reflexivity.
Qed.

End Wire.

(** ** The caller's array *)

Lemma nth_over_seqZ (data : list Z) (n : Z) :
  n <= Z.of_nat (length data) ->
  map (fun i => nth (Z.to_nat i) data 0) (seqZ 0 n) = take (Z.to_nat n) data.
Proof.
  intros Hn. apply list_eq. intros k.
  change (map ?f ?l) with (f <$> l). rewrite list_lookup_fmap.
  destruct (Z_lt_le_dec (Z.of_nat k) n) as [Hk | Hk].
  - rewrite lookup_seqZ_lt by exact Hk. cbn [fmap option_fmap option_map].
    rewrite lookup_take_lt by lia.
    rewrite Z.add_0_l, Nat2Z.id.
    destruct (nth_lookup_or_length data k 0) as [-> | Hge]; [reflexivity | lia].
  - rewrite lookup_seqZ_ge by exact Hk. rewrite lookup_take_ge by lia. reflexivity.
Qed.

Lemma map_to_u8_bytes (bs : list Z) :
  Forall Int.is_u8 bs -> map Int.to_u8 bs = bs.
Proof.
  induction 1 as [| b bs Hb Hbs IH]; cbn [map]; [reflexivity |].
  rewrite to_u8_small by exact Hb. f_equal. exact IH.
Qed.

Section CallerArray.

Context {D : Type} {slave : Slave D}.

(** What a read span returns, in terms of the answers of the device. *)
Lemma read_span_filled ss txs (data : list Z) (d : D) :
  (length txs <= length data)%nat ->
  let bs := map (fun rx => nth 2 rx 0) (answers ss txs d).1 in
  store_from 0 bs data = bs ++ drop (length txs) data
  /\ length bs = length txs
  /\ Forall Int.is_u8 bs.
Proof.
  intros Hlen bs.
  assert (Hbs : length bs = length txs).
  { subst bs. rewrite length_map. apply answers_length. }
  split; [| split; [exact Hbs | apply data_bytes_u8, answers_u8]].
  rewrite store_from_spec by lia.
  rewrite take_0, Hbs. reflexivity.
Qed.

(** X7.  With room for [N] bytes in the caller's array, [readMemory] and
    [readOTP] return the array with its first [N] entries replaced by the
    data bytes with which the device answers the [N] frames, in the order of
    the transfers, and the rest as it was; the entries stored are bytes, the
    array keeps its length, and the device is left as the pulses leave it. *)
Theorem read_span_result (this : InficonSpot) (A : Z) (data : list Z)
    (N : Z) (d : D) :
  N <= Z.of_nat (length data) ->
  (let a := answers (_ss_pin this) (map frame_read_memory (seqZ A N)) d in
   let bytes := map (fun rx => nth 2 rx 0) a.1 in
   let r := readMemory this A data N d in
   value r = bytes ++ drop (Z.to_nat N) data
   /\ device r = a.2
   /\ received_data (events r) = bytes
   /\ length bytes = Z.to_nat N
   /\ Forall Int.is_u8 bytes
   /\ length (value r) = length data)
  /\
  (let a := answers (_ss_pin this) (map frame_read_otp (seqZ A N)) d in
   let bytes := map (fun rx => nth 2 rx 0) a.1 in
   let r := readOTP this A data N d in
   value r = bytes ++ drop (Z.to_nat N) data
   /\ device r = a.2
   /\ received_data (events r) = bytes
   /\ length bytes = Z.to_nat N
   /\ Forall Int.is_u8 bytes
   /\ length (value r) = length data).
Proof.
  intros HN. cbv zeta.
  rewrite readMemory_run, readOTP_run. cbv zeta.
  unfold value, device, events, received_data. cbn [fst snd].
  rewrite !received_framed_span by apply answers_length.
  rewrite !store_from_length.
  split.
  - assert (Hn : length (map frame_read_memory (seqZ A N)) = Z.to_nat N)
      by (rewrite length_map; apply length_seqZ).
    destruct (read_span_filled (_ss_pin this)
                (map frame_read_memory (seqZ A N)) data d) as (Hv & Hl & Hu); [lia |].
    rewrite Hn in Hv, Hl.
    split; [exact Hv |]. split; [reflexivity |]. split; [reflexivity |].
    split; [exact Hl |]. split; [exact Hu | reflexivity].
  - assert (Hn : length (map frame_read_otp (seqZ A N)) = Z.to_nat N)
      by (rewrite length_map; apply length_seqZ).
    destruct (read_span_filled (_ss_pin this)
                (map frame_read_otp (seqZ A N)) data d) as (Hv & Hl & Hu); [lia |].
    rewrite Hn in Hv, Hl.
    split; [exact Hv |]. split; [reflexivity |]. split; [reflexivity |].
    split; [exact Hl |]. split; [exact Hu | reflexivity].
Qed.

(** X8.  [writeMemory] returns the caller's array as it was, whatever the
    length asked for, and with at least [N] bytes in the array the data
    bytes of its frames are the first [N] of them, in order. *)
Theorem writeMemory_payload (this : InficonSpot) (A : Z) (data : list Z)
    (N : Z) (d : D) :
  N <= Z.of_nat (length data) ->
  Forall Int.is_u8 data ->
  value (writeMemory this A data N d) = data
  /\ map (fun tx => nth 2 tx 0) (sent (events (writeMemory this A data N d)))
     = take (Z.to_nat N) data.
Proof.
  intros HN Hbytes.
  rewrite writeMemory_run. cbv zeta. unfold value, events. cbn [fst snd].
  split; [reflexivity |].
  rewrite sent_framed_span by apply answers_length.
  unfold write_frames. rewrite map_map. cbn [frame_write_memory nth].
  rewrite <- (map_map (fun i => nth (Z.to_nat i) data 0) Int.to_u8).
  rewrite nth_over_seqZ by exact HN.
  apply map_to_u8_bytes, Forall_take, Hbytes.
Qed.

End CallerArray.

(** ** The discipline of the bus *)

Lemma bus_run_app ss l1 : forall p l2,
  bus_run ss p (l1 ++ l2)
  = match bus_run ss p l1 with
    | Some p' => bus_run ss p' l2
    | None => None
    end.
Proof.
  induction l1 as [| e l1 IH]; intros p l2; cbn [app bus_run]; [reflexivity |].
  destruct (bus_step ss p e) as [p' |]; [apply IH | reflexivity].
Qed.

Lemma bus_run_pulses ss : forall txs rxs,
  Forall2 (fun tx rx : list Z => length tx = length rx) txs rxs ->
  bus_run ss Claimed (concat (zip_with (pulse ss) txs rxs)) = Some Claimed.
Proof.
  induction 1 as [| tx rx txs rxs Hlen _ IH]; [reflexivity |].
  cbn [zip_with concat]. rewrite bus_run_app.
  unfold pulse at 1. unfold LOW, HIGH. cbn [bus_run bus_step].
  rewrite Z.eqb_refl. cbn [bus_step].
  rewrite Hlen, Nat.eqb_refl. cbn [bus_step].
  rewrite Z.eqb_refl. exact IH.
Qed.

Lemma framed_span_well_framed st ss txs rxs :
  Forall2 (fun tx rx : list Z => length tx = length rx) txs rxs ->
  well_framed ss (framed_span st ss txs rxs).
Proof.
  intros H. unfold well_framed, framed_span. cbn [bus_run bus_step].
  rewrite bus_run_app, bus_run_pulses by exact H. reflexivity.
Qed.

Lemma well_framed_app ss l1 l2 :
  well_framed ss l1 -> well_framed ss l2 -> well_framed ss (l1 ++ l2).
Proof.
  unfold well_framed. intros H1 H2. rewrite bus_run_app, H1. exact H2.
Qed.

Section Discipline.

Context {D : Type} {slave : Slave D}.

Lemma answers_in_place ss txs : forall d : D,
  Forall2 (fun tx rx : list Z => length tx = length rx) txs (answers ss txs d).1.
Proof.
  induction txs as [| tx txs IH]; intros d; cbn [answers fst]; constructor.
  - symmetry. apply transaction_length.
  - apply IH.
Qed.

Lemma events_bind {A B : Type} (m : M A) (k : A -> M B) (d : D) :
  events (bind m k d)
  = events (m d) ++ events (k (value (m d)) (device (m d))).
Proof.
  unfold bind, events, value, device.
  destruct (m d) as [[a d1] t1]. cbn [fst snd].
  destruct (k a d1) as [[b d2] t2]. reflexivity.
Qed.

Lemma one_pulse_well_framed st ss tx (d : D) :
  well_framed ss (framed_span st ss [tx] [(transaction ss tx d).1]).
Proof.
  apply framed_span_well_framed. constructor; [| constructor].
  symmetry. apply transaction_length.
Qed.

Lemma readLabel_events this address len s (d : D) :
  events (readLabel this address len s d)
  = events (readMemory this address s (if 32 <? len then 32 else len) d).
Proof.
  change (readLabel this address len s d)
    with (bind (readMemory this address s (if 32 <? len then 32 else len))
               (fun s' => ret (label_of (if 32 <? len then 32 else len) s')) d).
  rewrite bind_ret_run. reflexivity.
Qed.

(** X9.  Every bus operation of the driver keeps the discipline of the bus,
    whatever its arguments and whatever the device answers: it finds the bus
    free and leaves it free, selects the chip only while it holds the bus,
    transfers exactly one buffer per selection, and drives no line but its
    chip select. *)
Theorem driver_well_framed (this : InficonSpot) (x y : Z) (buf : list Z)
    (n : Z) (d : D) :
  let ok {A : Type} (r : A * D * list event) :=
    well_framed (_ss_pin this) (events r) in
  ok (sendCommand this x d)
  /\ ok (resetSensor this d)
  /\ ok (readRegister this x d)
  /\ ok (writeRegister this x y d)
  /\ ok (readOTP this x buf n d)
  /\ ok (readMemory this x buf n d)
  /\ ok (writeMemory this x buf n d)
  /\ ok (readLabel this x n buf d)
  /\ ok (readSramCrc x this buf d)
  /\ ok (readOtpCrc x this buf d).
Proof.
  cbv zeta.
  assert (Hmem : forall a l, well_framed (_ss_pin this)
                               (events (readMemory this a buf l d))).
  { intros a l. rewrite readMemory_run. cbv zeta. unfold events. cbn [snd].
    apply framed_span_well_framed, answers_in_place. }
  assert (Hotp : forall a l, well_framed (_ss_pin this)
                               (events (readOTP this a buf l d))).
  { intros a l. rewrite readOTP_run. cbv zeta. unfold events. cbn [snd].
    apply framed_span_well_framed, answers_in_place. }
  unfold resetSensor. rewrite !sendCommand_run.
  rewrite readRegister_run, writeRegister_run, writeMemory_run. cbv zeta.
  rewrite readLabel_events.
  change (readSramCrc x this buf d)
    with (bind (readMemory this x buf 4) (fun c => ret (crc_value c)) d).
  change (readOtpCrc x this buf d)
    with (bind (readOTP this x buf 4) (fun c => ret (crc_value c)) d).
  rewrite !bind_ret_run.
  unfold events at 1 2 3 4. cbn [snd].
  repeat (split; [first [ apply one_pulse_well_framed | apply Hmem | apply Hotp
                        | apply framed_span_well_framed, answers_in_place ] |]).
  apply Hotp.
Qed.

End Discipline.

(** ** More on labels *)

Lemma first_zero_cases (bs : list Z) :
  Forall (fun b => b <> 0) bs
  \/ exists k : nat,
       bs !! k = Some 0 /\ forall j : nat, (j < k)%nat -> bs !! j <> Some 0.
Proof.
  induction bs as [| b bs IH]; [left; constructor |].
  destruct (Z.eq_dec b 0) as [-> | Hb].
  - right. exists 0%nat. split; [reflexivity | intros j Hj; lia].
  - destruct IH as [Hnz | (k & Hk & Hfirst)].
    + left. constructor; assumption.
    + right. exists (S k). split; [exact Hk |].
      intros [| j] Hj; cbn [lookup list_lookup].
      * intros [= H0]. contradiction.
      * apply Hfirst. lia.
Qed.

Lemma string_of_bytes_length bs :
  String.length (string_of_bytes bs) = length bs.
Proof.
  induction bs as [| b bs IH]; cbn [string_of_bytes fold_right String.length length];
    [reflexivity |].
  f_equal. exact IH.
Qed.

(** The label is a zero-free stretch at the front of the bytes stored,
    shorter than they are, and it is the same whatever follows them. *)
Lemma label_of_prefix bs rest :
  (0 < length (bs ++ rest))%nat ->
  exists k : nat,
    (k <= length bs - 1)%nat
    /\ label_of (Z.of_nat (length bs)) (bs ++ rest) = string_of_bytes (take k bs)
    /\ Forall (fun b => b <> 0) (take k bs)
    /\ forall rest', (0 < length (bs ++ rest'))%nat ->
         label_of (Z.of_nat (length bs)) (bs ++ rest')
         = label_of (Z.of_nat (length bs)) (bs ++ rest).
Proof.
  intros Hne.
  destruct (first_zero_cases bs) as [Hnz | (k & Hk & Hfirst)].
  - exists 0%nat. split; [lia |].
    rewrite (proj1 (label_of_filled bs rest Hne) Hnz).
    split; [reflexivity |]. split; [constructor |].
    intros rest' Hne'. apply (proj1 (label_of_filled bs rest' Hne') Hnz).
  - exists k.
    assert (Hlt : (k < length bs)%nat) by (apply lookup_lt_is_Some; eauto).
    split; [lia |].
    rewrite (proj2 (label_of_filled bs rest Hne) k Hk Hfirst).
    split; [reflexivity |]. split.
    + apply Forall_lookup. intros j b Hj Hb. subst b.
      apply lookup_take_Some in Hj as [Hj Hjk]. exact (Hfirst j Hjk Hj).
    + intros rest' Hne'. apply (proj2 (label_of_filled bs rest' Hne') k Hk Hfirst).
Qed.

Section LabelFacts.

Context {D : Type} {slave : Slave D}.

(** [readLabel], in terms of the answers of the device. *)
Lemma readLabel_run this address len s (d : D) :
  0 <= len ->
  length s = 32%nat ->
  let n := Z.min len 32 in
  let txs := map frame_read_memory (seqZ address n) in
  let a := answers (_ss_pin this) txs d in
  let bs := map (fun rx => nth 2 rx 0) a.1 in
  readLabel this address len s d
  = (label_of (Z.of_nat (length bs)) (bs ++ drop (length bs) s), a.2,
     framed_span (settings this) (_ss_pin this) txs a.1)
  /\ length bs = Z.to_nat n
  /\ length a.1 = length txs.
Proof.
  intros Hlen Hs n txs a bs.
  assert (Hn : (if 32 <? len then 32 else len) = n).
  { subst n. destruct (Z.ltb_spec 32 len); lia. }
  assert (Hla : length a.1 = length txs) by (subst a; apply answers_length).
  assert (Hlb : length bs = Z.to_nat n).
  { subst bs txs. rewrite length_map, Hla, length_map. apply length_seqZ. }
  split; [| split; [exact Hlb | exact Hla]].
  change (readLabel this address len s d)
    with (bind (readMemory this address s (if 32 <? len then 32 else len))
               (fun s' => ret (label_of (if 32 <? len then 32 else len) s')) d).
  rewrite Hn, bind_ret_run, readMemory_run. cbv zeta.
  unfold value, device, events. cbn [fst snd].
  fold txs. fold a. fold bs.
  rewrite store_from_spec by lia. rewrite take_0. cbn [app Nat.add].
  replace (Z.of_nat (length bs)) with n by lia. reflexivity.
Qed.

(** X11.  Neither [readLabel] nor the CRC accessors depend on what their
    local array holds on entry: with any two arrays of the declared size
    they are the same computation. *)
Theorem results_ignore_stack_garbage (this : InficonSpot) (address len : Z)
    (s1 s2 c1 c2 : list Z) (d : D) :
  0 <= len < 2 ^ 8 ->
  length s1 = 32%nat -> length s2 = 32%nat ->
  length c1 = 4%nat -> length c2 = 4%nat ->
  readLabel this address len s1 d = readLabel this address len s2 d
  /\ readSramCrc address this c1 d = readSramCrc address this c2 d
  /\ readOtpCrc address this c1 d = readOtpCrc address this c2 d.
Proof.
  intros Hlen Hs1 Hs2 Hc1 Hc2. split.
  - destruct (readLabel_run this address len s1 d) as (-> & Hb1 & _); [lia | exact Hs1 |].
    destruct (readLabel_run this address len s2 d) as (-> & Hb2 & _); [lia | exact Hs2 |].
    cbv zeta in *.
    set (bs := map (fun rx => nth 2 rx 0) _) in *.
    assert (Hne : forall s, length s = 32%nat ->
                    (0 < length (bs ++ drop (length bs) s))%nat).
    { intros s Hs. rewrite length_app, length_drop. lia. }
    destruct (label_of_prefix bs (drop (length bs) s2) (Hne s2 Hs2))
      as (k & _ & _ & _ & Hsame).
    rewrite (Hsame (drop (length bs) s1) (Hne s1 Hs1)). reflexivity.
  - change (readSramCrc address this c1 d)
      with (bind (readMemory this address c1 4) (fun c => ret (crc_value c)) d).
    change (readSramCrc address this c2 d)
      with (bind (readMemory this address c2 4) (fun c => ret (crc_value c)) d).
    change (readOtpCrc address this c1 d)
      with (bind (readOTP this address c1 4) (fun c => ret (crc_value c)) d).
    change (readOtpCrc address this c2 d)
      with (bind (readOTP this address c2 4) (fun c => ret (crc_value c)) d).
    rewrite !bind_ret_run, !readMemory_run, !readOTP_run. cbv zeta.
    unfold value, device, events. cbn [fst snd].
    assert (Hfill : forall txs c, length txs = 4%nat -> length c = 4%nat ->
              store_from 0 (map (fun rx => nth 2 rx 0)
                                (answers (_ss_pin this) txs d).1) c
              = map (fun rx => nth 2 rx 0) (answers (_ss_pin this) txs d).1).
    { intros txs c Htxs Hc.
      destruct (read_span_filled (_ss_pin this) txs c d) as (Hv & _ & _); [lia |].
      rewrite Hv, Htxs, drop_ge by lia. apply app_nil_r. }
    rewrite !Hfill by (reflexivity || assumption).
    split; reflexivity.
Qed.

(** X12.  The string that [readLabel] returns is a stretch at the front of
    the data bytes received that holds no zero byte, and it is shorter than
    the number of bytes read: at most 31 characters for any length asked
    for, and empty when the length is 0. *)
Theorem readLabel_is_short_prefix (this : InficonSpot) (address len : Z)
    (s : list Z) (d : D) :
  0 <= len < 2 ^ 8 ->
  length s = 32%nat ->
  let r := readLabel this address len s d in
  let bytes := received_data (events r) in
  (String.length (value r) <= Z.to_nat (Z.min len 32) - 1)%nat
  /\ (String.length (value r) <= 31)%nat
  /\ exists k : nat,
       value r = string_of_bytes (take k bytes)
       /\ Forall (fun b => b <> 0) (take k bytes).
Proof.
  intros Hlen Hs.
  destruct (readLabel_run this address len s d) as (Hrun & Hb & Ha); [lia | exact Hs |].
  cbv zeta in *. rewrite Hrun. clear Hrun.
  unfold value, events, received_data. cbn [fst snd].
  rewrite received_framed_span by exact Ha.
  set (bs := map (fun rx => nth 2 rx 0) _) in *.
  destruct (label_of_prefix bs (drop (length bs) s)) as (k & Hk & Hval & Hnz & _).
  { rewrite length_app, length_drop. lia. }
  rewrite Hval, string_of_bytes_length, length_take.
  split; [lia |]. split; [lia |].
  exists k. split; [reflexivity | exact Hnz].
Qed.

End LabelFacts.

(** ** Writing memory and reading it back *)

Section RamMock.

Variable ss : Z.

Lemma memory_opcode_class c a :
  0 <= c -> Z.shiftr (Z.lor (c * 2 ^ 4) (Z.land (Z.shiftr a 8) 0x0f)) 4 = c.
Proof.
  intros Hc. destruct (memory_opcode c (Z.shiftr a 8)) as [-> Hr].
  rewrite Z.shiftr_div_pow2 by lia.
  symmetry. apply (Z.div_unique _ (2 ^ 4) c (Z.shiftr a 8 mod 2 ^ 4)); lia.
Qed.

Lemma ram_read_pulse a (d : ram) :
  transaction (slave := ram_slave ss) ss (frame_read_memory a) d
  = ([0; 0; Int.to_u8 (ram_cells d (a mod 2 ^ 12))],
     {| ram_cells := ram_cells d; ram_seen := frame_read_memory a |}).
Proof.
  pose proof (memory_opcode_class 1 a) as Hclass.
  pose proof (proj2 (frame_read_memory_decode a)) as Haddr.
  unfold frame_read_memory in *. change (1 * 2 ^ 4) with 0x10 in Hclass.
  unfold transaction, LOW, HIGH.
  cbn [exchange on_pin on_byte ram_slave].
  unfold ram_pin. rewrite Z.eqb_refl. cbn [andb negb].
  unfold ram_byte at 1 2 3. cbn [ram_seen ram_cells app].
  rewrite Hclass by lia. cbn [Z.eqb Pos.eqb].
  unfold memory_address_of in *. cbn [nth] in *.
  rewrite Haddr. cbn [ram_seen ram_cells app andb negb]. reflexivity.
Qed.

Lemma ram_write_pulse a b (d : ram) :
  transaction (slave := ram_slave ss) ss (frame_write_memory a b) d
  = ([0; 0; 0],
     {| ram_cells := ram_store (ram_cells d) (a mod 2 ^ 12) b;
        ram_seen := frame_write_memory a b |}).
Proof.
  pose proof (memory_opcode_class 9 a) as Hclass.
  pose proof (proj2 (frame_write_memory_decode a b)) as Haddr.
  unfold frame_write_memory in *. change (9 * 2 ^ 4) with 0x90 in Hclass.
  unfold transaction, LOW, HIGH.
  cbn [exchange on_pin on_byte ram_slave].
  unfold ram_pin. rewrite Z.eqb_refl. cbn [andb negb].
  unfold ram_byte at 1 2 3. cbn [ram_seen ram_cells app].
  rewrite Hclass by lia. cbn [Z.eqb Pos.eqb].
  unfold memory_address_of in *. cbn [nth] in *.
  rewrite Haddr. cbn [ram_seen ram_cells app andb negb]. reflexivity.
Qed.

Lemma ram_answers_write (ps : list (Z * Z)) : forall d : ram,
  ram_cells (answers (slave := ram_slave ss) ss (map (fun p => frame_write_memory p.1 p.2) ps) d).2
  = ram_writes (ram_cells d) ps.
Proof.
  induction ps as [| [a b] ps IH]; intros d; cbn [map answers fst snd];
    [reflexivity |].
  rewrite IH, ram_write_pulse. reflexivity.
Qed.

Lemma ram_answers_read (addrs : list Z) : forall d : ram,
  map (fun rx => nth 2 rx 0)
      (answers (slave := ram_slave ss) ss (map frame_read_memory addrs) d).1
  = map (fun a => Int.to_u8 (ram_cells d (a mod 2 ^ 12))) addrs.
Proof.
  induction addrs as [| a addrs IH]; intros d; cbn [map answers fst snd];
    [reflexivity |].
  rewrite IH, ram_read_pulse. reflexivity.
Qed.

(** Cells written at consecutive addresses inside the memory hold what was
    written to them. *)
Lemma ram_writes_span (cells : Z -> Z) (f : Z -> Z) (A : Z) (n : nat) :
  0 <= A -> A + Z.of_nat n <= 2 ^ 12 ->
  forall j, 0 <= j < Z.of_nat n ->
  ram_writes cells (map (fun i => (A + i, f i)) (seqZ 0 (Z.of_nat n))) (A + j)
  = f j.
Proof.
  intros HA. induction n as [| n IH]; intros Hn j Hj; [lia |].
  rewrite seqZ_S, map_app. unfold ram_writes in *. rewrite fold_left_app.
  cbn [map fold_left fst snd]. unfold ram_store at 1.
  rewrite Z.add_0_l, Z.mod_small by lia.
  destruct (Z.eqb_spec (A + j) (A + Z.of_nat n)) as [Heq | Hne].
  - f_equal. lia.
  - apply IH; lia.
Qed.

(** X14.  Against a memory that takes the write frames and answers the read
    frames, bytes written with [writeMemory] to a span inside the 2^12 cells
    are what [readMemory] returns for the same span. *)
Theorem memory_write_read_roundtrip (this : InficonSpot) (A : Z)
    (data buf : list Z) (d : ram) :
  _ss_pin this = ss ->
  0 <= A ->
  A + Z.of_nat (length data) <= 2 ^ 12 ->
  Forall Int.is_u8 data ->
  length buf = length data ->
  value (bind (writeMemory (slave := ram_slave ss) this A data
                           (Z.of_nat (length data)))
              (fun _ => readMemory (slave := ram_slave ss) this A buf
                                   (Z.of_nat (length data))) d)
  = data.
Proof.
  intros Hss HA Hfit Hbytes Hbuf.
  set (N := Z.of_nat (length data)).
  assert (Hval : forall {X Y : Type} (m : M X) (k : X -> M Y) (d0 : ram),
            value (bind m k d0) = value (k (value (m d0)) (device (m d0)))).
  { intros X Y m k d0. unfold bind, value, device.
    destruct (m d0) as [[x d1] t1]. cbn [fst snd].
    destruct (k x d1) as [[y d2] t2]. reflexivity. }
  rewrite Hval, writeMemory_run, readMemory_run. cbv zeta.
  unfold value, device. cbn [fst snd]. rewrite Hss.
  rewrite ram_answers_read.
  rewrite store_from_spec
    by (rewrite length_map, length_seqZ; subst N; lia).
  rewrite take_0, length_map, length_seqZ.
  rewrite drop_ge by (subst N; lia). cbn [app Nat.add]. rewrite app_nil_r.
  unfold write_frames.
  rewrite <- (map_map (fun i => (A + i, Int.to_u8 (nth (Z.to_nat i) data 0)))
                      (fun p => frame_write_memory p.1 p.2)).
  rewrite ram_answers_write.
  apply list_eq. intros k.
  change (map ?f ?l) with (f <$> l). rewrite list_lookup_fmap.
  destruct (Z_lt_le_dec (Z.of_nat k) N) as [Hk | Hk].
  - rewrite lookup_seqZ_lt by exact Hk. cbn [fmap option_fmap option_map].
    rewrite Z.mod_small by (subst N; lia).
    change ((fun i => (A + i, Int.to_u8 (nth (Z.to_nat i) data 0))) <$> seqZ 0 N)
      with (map (fun i => (A + i, Int.to_u8 (nth (Z.to_nat i) data 0))) (seqZ 0 N)).
    subst N.
    rewrite (ram_writes_span (ram_cells d)
               (fun i => Int.to_u8 (nth (Z.to_nat i) data 0))) by lia.
    rewrite Nat2Z.id.
    destruct (nth_lookup_or_length data k 0) as [Hlk | Hge]; [| lia].
    rewrite Hlk. f_equal.
    assert (Hb : Int.is_u8 (nth k data 0)) by (apply nth_u8; exact Hbytes).
    rewrite !to_u8_small by (rewrite ?to_u8_small by exact Hb; exact Hb).
    reflexivity.
  - rewrite lookup_seqZ_ge by exact Hk. symmetry.
    apply lookup_ge_None. subst N. lia.
Qed.

End RamMock.

(** ** Label accessors *)

Section AccessorFacts.

Context {D : Type} {slave : Slave D}.

(** A label of [len <= 32] bytes: the frames that go out, and how long the
    string can be. *)
Lemma readLabel_reads this address len s (d : D) :
  0 <= len <= 32 ->
  length s = 32%nat ->
  sent (events (readLabel this address len s d))
  = map frame_read_memory (seqZ address len)
  /\ (String.length (value (readLabel this address len s d)) <= Z.to_nat len - 1)%nat.
Proof.
  intros Hlen Hs.
  destruct (readLabel_run this address len s d) as (Hrun & Hb & Ha); [lia | exact Hs |].
  cbv zeta in *. rewrite Hrun. clear Hrun.
  rewrite Z.min_l in * by lia.
  unfold value, events. cbn [fst snd].
  rewrite sent_framed_span by exact Ha.
  split; [reflexivity |].
  set (bs := map (fun rx => nth 2 rx 0) _) in *.
  destruct (label_of_prefix bs (drop (length bs) s)) as (k & Hk & Hval & _ & _).
  { rewrite length_app, length_drop. lia. }
  rewrite Hval, string_of_bytes_length, length_take. lia.
Qed.

Variables ADDR_PRODUCT_NO ADDR_SERIAL_NO ADDR_FULLSCALE1 ADDR_FULLSCALE2
          ADDR_TYPE ADDR_SPEED : Z.

(** X13.  The product number and the serial number are read with 32
    memory-read frames from their address on and come back as at most 31
    characters; the two full-scale labels, the type and the speed are read
    with 16 frames and come back as at most 15 characters. *)
Theorem label_accessors (this : InficonSpot) (s : list Z) (d : D) :
  length s = 32%nat ->
  let reads (n : Z) (a : Z) (r : string * D * list event) :=
    sent (events r) = map frame_read_memory (seqZ a n)
    /\ (String.length (value r) <= Z.to_nat n - 1)%nat in
  reads 32 ADDR_PRODUCT_NO (readProductNo ADDR_PRODUCT_NO this s d)
  /\ reads 32 ADDR_SERIAL_NO (readSerialNo ADDR_SERIAL_NO this s d)
  /\ reads 16 ADDR_FULLSCALE1 (readFullscale1 ADDR_FULLSCALE1 this s d)
  /\ reads 16 ADDR_FULLSCALE2 (readFullscale2 ADDR_FULLSCALE2 this s d)
  /\ reads 16 ADDR_TYPE (readType ADDR_TYPE this s d)
  /\ reads 16 ADDR_SPEED (readSpeed ADDR_SPEED this s d).
Proof.
  intros Hs. cbv zeta.
  unfold readProductNo, readSerialNo, readFullscale1, readFullscale2,
    readType, readSpeed.
  repeat (split; [apply readLabel_reads; [lia | exact Hs] |]).
  apply readLabel_reads; [lia | exact Hs].
Qed.

End AccessorFacts.

(** ** Spans in two parts *)

Section SplitSpans.

Context {D : Type} {slave : Slave D}.

Lemma answers_app ss txs1 : forall txs2 (d : D),
  answers ss (txs1 ++ txs2) d
  = ((answers ss txs1 d).1 ++ (answers ss txs2 (answers ss txs1 d).2).1,
     (answers ss txs2 (answers ss txs1 d).2).2).
Proof.
  induction txs1 as [| tx txs1 IH]; intros txs2 d; cbn [app answers fst snd].
  - destruct (answers ss txs2 d). reflexivity.
  - rewrite IH. reflexivity.
Qed.

Lemma seqZ_split A n1 n2 :
  0 <= n1 -> 0 <= n2 -> seqZ A (n1 + n2) = seqZ A n1 ++ seqZ (A + n1) n2.
Proof. intros H1 H2. apply seqZ_app; assumption. Qed.

(** X18.  Reading a span in one call stores the same bytes and leaves the
    device in the same state as reading its first part and then, from the
    address behind it, the rest: only the release and the new claim of the
    bus in between are missing from the log. *)
Theorem read_span_in_two (this : InficonSpot) (A : Z) (data1 data2 : list Z)
    (d : D) :
  let N1 := Z.of_nat (length data1) in
  let N2 := Z.of_nat (length data2) in
  (let r := readMemory this A (data1 ++ data2) (N1 + N2) d in
   let r1 := readMemory this A data1 N1 d in
   let r2 := readMemory this (A + N1) data2 N2 (device r1) in
   value r = value r1 ++ value r2
   /\ device r = device r2
   /\ sent (events r) = sent (events r1) ++ sent (events r2)
   /\ received (events r) = received (events r1) ++ received (events r2))
  /\
  (let r := readOTP this A (data1 ++ data2) (N1 + N2) d in
   let r1 := readOTP this A data1 N1 d in
   let r2 := readOTP this (A + N1) data2 N2 (device r1) in
   value r = value r1 ++ value r2
   /\ device r = device r2
   /\ sent (events r) = sent (events r1) ++ sent (events r2)
   /\ received (events r) = received (events r1) ++ received (events r2)).
Proof.
  cbv zeta.
  rewrite !readMemory_run, !readOTP_run. cbv zeta.
  unfold value, device, events. cbn [fst snd].
  rewrite !seqZ_split, !map_app, !answers_app by lia. cbn [fst snd].
  rewrite !sent_framed_span, !received_framed_span
    by (rewrite ?length_app, ?answers_length; reflexivity).
  assert (Hfill : forall txs1 txs2 d1 d2,
            length txs1 = length data1 -> length txs2 = length data2 ->
            store_from 0
              (map (fun rx => nth 2 rx 0)
                   ((answers (_ss_pin this) txs1 d1).1
                    ++ (answers (_ss_pin this) txs2 d2).1))
              (data1 ++ data2)
            = store_from 0 (map (fun rx => nth 2 rx 0)
                                (answers (_ss_pin this) txs1 d1).1) data1
              ++ store_from 0 (map (fun rx => nth 2 rx 0)
                                   (answers (_ss_pin this) txs2 d2).1) data2).
  { intros txs1 txs2 d1 d2 H1 H2.
    rewrite !store_from_spec
      by (rewrite ?length_app, ?length_map, ?length_app, ?answers_length; lia).
    rewrite !take_0, !length_map, length_app, !answers_length.
    rewrite !drop_ge by (rewrite ?length_app; lia).
    cbn [app Nat.add]. rewrite !app_nil_r. apply map_app. }
  rewrite !Hfill by (rewrite length_map, length_seqZ; lia).
  repeat split; reflexivity.
Qed.

End SplitSpans.

(** ** More on unit conversion *)

Lemma lor_sign_bits raw :
  0 <= raw < 2 ^ 24 -> Z.lor raw 0xFF000000 = raw + 0xFF000000.
Proof.
  intros Hr. rewrite Z.lor_comm, Z.add_comm.
  apply (lor_high_low 255 raw 24); lia.
Qed.

Section Readings.

Context {D : Type} {slave : Slave D}.

Lemma readRegister_range this reg (d : D) :
  0 <= value (readRegister this reg d) < 2 ^ 24.
Proof.
  rewrite readRegister_run. cbv zeta. unfold value. cbn [fst].
  destruct (transaction_4 (_ss_pin this) (Int.to_u8 (Z.lor reg 0x40)) 0 0 0 d)
    as (r0 & r1 & r2 & r3 & -> & H0 & H1 & H2 & H3).
  rewrite register_value_be, assemble_be24 by assumption.
  unfold Int.is_u8 in *. lia.
Qed.

(** X15.  What [readRegister] returns is converted as it is: the cast finds
    bit 31 clear, so the integer that [convertPressure] and
    [convertTemperature] scale is the unsigned content of the register and
    is never negative, whatever the device sent. *)
Theorem register_reading_converted_unsigned (this : InficonSpot) (reg : Z)
    (fullscale : F32.float) (d : D) :
  let raw := value (readRegister this reg d) in
  0 <= Int.reinterpret_i32 raw < 2 ^ 24
  /\ Int.reinterpret_i32 raw = raw
  /\ convertPressure raw fullscale
     = F32.mul (F32.div (F32.of_Z raw) F32.c2097152) fullscale
  /\ convertTemperature raw
     = F32.mul (F32.div (F32.of_Z raw) F32.c2097152) (F32.of_Z 25).
Proof.
  cbv zeta. pose proof (readRegister_range this reg d) as Hr.
  unfold convertPressure, convertTemperature. cbv zeta.
  rewrite reinterpret_i32_u24 by exact Hr.
  split; [exact Hr |]. repeat split; reflexivity.
Qed.

End Readings.

(** X16.  The conversions are signed on 32 bits: for a register value with
    bit 23 set, a caller who sets bits 24 to 31 before the call has the
    negative number [raw - 2^24] converted. *)
Theorem convert_sign_extended_by_caller (raw : Z) (fullscale : F32.float) :
  2 ^ 23 <= raw < 2 ^ 24 ->
  Int.reinterpret_i32 (Z.lor raw 0xFF000000) = raw - 2 ^ 24
  /\ convertPressure (Z.lor raw 0xFF000000) fullscale
     = F32.mul (F32.div (F32.of_Z (raw - 2 ^ 24)) F32.c2097152) fullscale
  /\ convertTemperature (Z.lor raw 0xFF000000)
     = F32.mul (F32.div (F32.of_Z (raw - 2 ^ 24)) F32.c2097152) (F32.of_Z 25).
Proof.
  intros Hr.
  assert (Hcast : Int.reinterpret_i32 (Z.lor raw 0xFF000000) = raw - 2 ^ 24).
  { rewrite lor_sign_bits by lia. unfold Int.reinterpret_i32.
    destruct (Z.ltb_spec (raw + 0xFF000000) (2 ^ 31)); lia. }
  unfold convertPressure, convertTemperature. cbv zeta. rewrite Hcast.
  repeat split; reflexivity.
Qed.

(** X17.  A raw value of 0 gives a pressure of zero with the sign of the
    full scale when the full scale is finite, and not a number when it is
    infinite or not a number; the temperature for 0 is zero. *)
Theorem convert_zero (fullscale : F32.float) :
  convertPressure 0 fullscale
  = match fullscale with
    | S754_zero s | S754_finite s _ _ => S754_zero s
    | S754_infinity _ | S754_nan => S754_nan
    end
  /\ convertTemperature 0 = F32.of_Z 0.
Proof.
  split; [| vm_compute; reflexivity].
  destruct fullscale as [sx | sx | | sx m e]; reflexivity.
Qed.

(** ** The further properties at work on the mock sensors *)

Lemma opcode_classes_witness :
  0 <= 63 <= 63
  /\ Forall (fun tx => 0x40 <= nth 0 tx 0 < 0x80)
            (sent (events (readRegister (slave := rom_slave 10) spot 63 rom_SPOT)))
  /\ Forall (fun tx => 0xc0 <= nth 0 tx 0 < 0x100)
            (sent (events (writeRegister (slave := rom_slave 10) spot 63 0xFFFFFF rom_SPOT)))
  /\ Forall (fun tx => 0x10 <= nth 0 tx 0 < 0x20)
            (sent (events (readMemory (slave := rom_slave 10) spot 0xFFFF [0; 0] 2 rom_SPOT)))
  /\ Forall (fun tx => 0x90 <= nth 0 tx 0 < 0xa0)
            (sent (events (writeMemory (slave := rom_slave 10) spot 0xFFFF [0; 0] 2 rom_SPOT)))
  /\ Forall (fun tx => 0x20 <= nth 0 tx 0 < 0x40)
            (sent (events (readOTP (slave := rom_slave 10) spot 0xFFFF [0; 0] 2 rom_SPOT)))
  /\ sent (events (resetSensor (slave := rom_slave 10) spot rom_SPOT)) = [[0x88]].
Proof.
  split; [lia |].
  apply (opcode_classes (slave := rom_slave 10) spot 63 0xFFFFFF 0xFFFF [0; 0] 2 rom_SPOT).
  lia.
Defined.

Lemma span_addresses_on_wire_witness :
  0 <= 1 < 2
  /\ (exists tx,
        sent (events (readMemory (slave := rom_slave 10) spot 0xFFF [0; 0] 2 rom_SPOT))
          !! Z.to_nat 1 = Some tx
        /\ memory_address_of tx = (0xFFF + 1) mod 2 ^ 12)
  /\ (exists tx,
        sent (events (writeMemory (slave := rom_slave 10) spot 0xFFF [0; 0] 2 rom_SPOT))
          !! Z.to_nat 1 = Some tx
        /\ memory_address_of tx = (0xFFF + 1) mod 2 ^ 12)
  /\ (exists tx,
        sent (events (readOTP (slave := rom_slave 10) spot 0xFFF [0; 0] 2 rom_SPOT))
          !! Z.to_nat 1 = Some tx
        /\ otp_address_of tx = (0xFFF + 1) mod 2 ^ 13).
Proof.
  split; [lia |].
  apply (span_addresses_on_wire (slave := rom_slave 10) spot 0xFFF [0; 0] 2 1 rom_SPOT).
  lia.
Defined.

Lemma read_span_result_witness :
  3 <= Z.of_nat (length [7; 8; 9; 10])
  /\ (let a := answers (slave := rom_slave 10) (_ss_pin spot)
                       (map frame_read_memory (seqZ 0 3)) rom_SPOT in
      let bytes := map (fun rx => nth 2 rx 0) a.1 in
      let r := readMemory (slave := rom_slave 10) spot 0 [7; 8; 9; 10] 3 rom_SPOT in
      value r = bytes ++ drop (Z.to_nat 3) [7; 8; 9; 10]
      /\ device r = a.2
      /\ received_data (events r) = bytes
      /\ length bytes = Z.to_nat 3
      /\ Forall Int.is_u8 bytes
      /\ length (value r) = length [7; 8; 9; 10])
  /\ (let a := answers (slave := rom_slave 10) (_ss_pin spot)
                       (map frame_read_otp (seqZ 0 3)) rom_SPOT in
      let bytes := map (fun rx => nth 2 rx 0) a.1 in
      let r := readOTP (slave := rom_slave 10) spot 0 [7; 8; 9; 10] 3 rom_SPOT in
      value r = bytes ++ drop (Z.to_nat 3) [7; 8; 9; 10]
      /\ device r = a.2
      /\ received_data (events r) = bytes
      /\ length bytes = Z.to_nat 3
      /\ Forall Int.is_u8 bytes
      /\ length (value r) = length [7; 8; 9; 10]).
Proof.
  split; [cbn; lia |].
  apply (read_span_result (slave := rom_slave 10) spot 0 [7; 8; 9; 10] 3 rom_SPOT).
  cbn; lia.
Defined.

Lemma writeMemory_payload_witness :
  2 <= Z.of_nat (length [7; 8; 9])
  /\ Forall Int.is_u8 [7; 8; 9]
  /\ value (writeMemory (slave := rom_slave 10) spot 0x100 [7; 8; 9] 2 rom_SPOT)
     = [7; 8; 9]
  /\ map (fun tx => nth 2 tx 0)
         (sent (events (writeMemory (slave := rom_slave 10) spot 0x100 [7; 8; 9] 2 rom_SPOT)))
     = take (Z.to_nat 2) [7; 8; 9].
Proof.
  assert (Hb : Forall Int.is_u8 [7; 8; 9])
    by (repeat constructor; unfold Int.is_u8; lia).
  split; [cbn; lia |]. split; [exact Hb |].
  apply (writeMemory_payload (slave := rom_slave 10) spot 0x100 [7; 8; 9] 2 rom_SPOT);
    [cbn; lia | exact Hb].
Defined.

Lemma results_ignore_stack_garbage_witness :
  0 <= 16 < 2 ^ 8
  /\ length (repeat 0xAA 32) = 32%nat /\ length (repeat 0x55 32) = 32%nat
  /\ length [1; 2; 3; 4] = 4%nat /\ length [5; 6; 7; 8] = 4%nat
  /\ readLabel (slave := rom_slave 10) spot 5 16 (repeat 0xAA 32) rom_SPOT
     = readLabel (slave := rom_slave 10) spot 5 16 (repeat 0x55 32) rom_SPOT
  /\ readSramCrc (slave := rom_slave 10) 5 spot [1; 2; 3; 4] rom_SPOT
     = readSramCrc (slave := rom_slave 10) 5 spot [5; 6; 7; 8] rom_SPOT
  /\ readOtpCrc (slave := rom_slave 10) 5 spot [1; 2; 3; 4] rom_SPOT
     = readOtpCrc (slave := rom_slave 10) 5 spot [5; 6; 7; 8] rom_SPOT.
Proof.
  split; [lia |]. do 4 (split; [reflexivity |]).
  apply (results_ignore_stack_garbage (slave := rom_slave 10) spot 5 16
           (repeat 0xAA 32) (repeat 0x55 32) [1; 2; 3; 4] [5; 6; 7; 8] rom_SPOT);
    [lia | reflexivity ..].
Defined.

Lemma readLabel_is_short_prefix_witness :
  0 <= 200 < 2 ^ 8
  /\ length (repeat 0xAA 32) = 32%nat
  /\ (let r := readLabel (slave := rom_slave 10) spot 5 200 (repeat 0xAA 32) rom_SPOT in
      let bytes := received_data (events r) in
      (String.length (value r) <= Z.to_nat (Z.min 200 32) - 1)%nat
      /\ (String.length (value r) <= 31)%nat
      /\ exists k : nat,
           value r = string_of_bytes (take k bytes)
           /\ Forall (fun b => b <> 0) (take k bytes)).
Proof.
  split; [lia |]. split; [reflexivity |].
  apply (readLabel_is_short_prefix (slave := rom_slave 10) spot 5 200
           (repeat 0xAA 32) rom_SPOT); [lia | reflexivity].
Defined.

Lemma label_accessors_witness :
  length (repeat 0xAA 32) = 32%nat
  /\ (let reads (n : Z) (a : Z) (r : string * rom * list event) :=
        sent (events r) = map frame_read_memory (seqZ a n)
        /\ (String.length (value r) <= Z.to_nat n - 1)%nat in
      reads 32 0 (readProductNo (slave := rom_slave 10) 0 spot (repeat 0xAA 32) rom_SPOT)
      /\ reads 32 32 (readSerialNo (slave := rom_slave 10) 32 spot (repeat 0xAA 32) rom_SPOT)
      /\ reads 16 64 (readFullscale1 (slave := rom_slave 10) 64 spot (repeat 0xAA 32) rom_SPOT)
      /\ reads 16 80 (readFullscale2 (slave := rom_slave 10) 80 spot (repeat 0xAA 32) rom_SPOT)
      /\ reads 16 96 (readType (slave := rom_slave 10) 96 spot (repeat 0xAA 32) rom_SPOT)
      /\ reads 16 112 (readSpeed (slave := rom_slave 10) 112 spot (repeat 0xAA 32) rom_SPOT)).
Proof.
  split; [reflexivity |].
  apply (label_accessors (slave := rom_slave 10) 0 32 64 80 96 112 spot
           (repeat 0xAA 32) rom_SPOT).
  reflexivity.
Defined.

Lemma memory_write_read_roundtrip_witness :
  _ss_pin spot = 10
  /\ 0 <= 0xFFD
  /\ 0xFFD + Z.of_nat (length [0x53; 0x50; 0x4F]) <= 2 ^ 12
  /\ Forall Int.is_u8 [0x53; 0x50; 0x4F]
  /\ length [0; 0; 0] = length [0x53; 0x50; 0x4F]
  /\ value (bind (writeMemory (slave := ram_slave 10) spot 0xFFD [0x53; 0x50; 0x4F]
                              (Z.of_nat (length [0x53; 0x50; 0x4F])))
                 (fun _ => readMemory (slave := ram_slave 10) spot 0xFFD [0; 0; 0]
                                      (Z.of_nat (length [0x53; 0x50; 0x4F])))
                 ram_blank)
     = [0x53; 0x50; 0x4F].
Proof.
  assert (Hb : Forall Int.is_u8 [0x53; 0x50; 0x4F])
    by (repeat constructor; unfold Int.is_u8; lia).
  split; [reflexivity |]. split; [lia |]. split; [cbn; lia |].
  split; [exact Hb |]. split; [reflexivity |].
  apply (memory_write_read_roundtrip 10 spot 0xFFD [0x53; 0x50; 0x4F] [0; 0; 0] ram_blank);
    [reflexivity | lia | cbn; lia | exact Hb | reflexivity].
Defined.

Lemma convert_sign_extended_by_caller_witness :
  2 ^ 23 <= 0xE00000 < 2 ^ 24
  /\ Int.reinterpret_i32 (Z.lor 0xE00000 0xFF000000) = 0xE00000 - 2 ^ 24
  /\ convertPressure (Z.lor 0xE00000 0xFF000000) (F32.of_Z 1)
     = F32.mul (F32.div (F32.of_Z (0xE00000 - 2 ^ 24)) F32.c2097152) (F32.of_Z 1)
  /\ convertTemperature (Z.lor 0xE00000 0xFF000000)
     = F32.mul (F32.div (F32.of_Z (0xE00000 - 2 ^ 24)) F32.c2097152) (F32.of_Z 25).
Proof.
  split; [lia |].
  apply (convert_sign_extended_by_caller 0xE00000 (F32.of_Z 1)). lia.
Defined.

(** With the sign bits set by the caller, the pattern 0xE00000 is -1 at full
    scale 1 and -25 degrees. *)
Example convert_FFE00000 :
  convertPressure 0xFFE00000 (F32.of_Z 1) = F32.of_Z (-1)
  /\ convertTemperature 0xFFE00000 = F32.of_Z (-25).
Proof. vm_compute. split; reflexivity. Qed.
